(** * TrashTV Production Hub: the view-state logic of [src/index.tsx]

    The dashboard is a Preact application.  Its logic is a set of event
    handlers over component-local state, plus calls to three external
    services (Google Identity, the Sheets API, the Gemini API).  The
    embedding below follows the handlers one by one:

    - component state is a record, and [set...] calls are field updates;
    - every [await]ed service call is recorded in a trace, and the reply
      of the service is an explicit argument of the handler;
    - [try]/[catch]/[finally] become a case analysis on that reply;
    - [console.error] has no effect on the state and is left out.

    A string is the UTF-8 encoding of the JavaScript string.  JavaScript
    values that the code only tests for truthiness are [option string]:
    [None] stands for a missing, [null] or [undefined] field.

    What comes from outside the repository is typed as its provider
    documents it where the code reads it without a test: a cell of a
    fetched row is a string, a field of the assistant's JSON is a string
    when present.  The error object of a rejected request may lack its
    code or its message.  [toLowerCase] acts on the ASCII letters.
    [Date] is a parameter of the task list. *)

From Stdlib Require Import ZArith Lia Ascii String List Sorted Permutation.
From stdpp Require Import base list strings gmap pretty.

Local Open Scope Z_scope.
Local Open Scope nat_scope.

(* ================================================================= *)
(** ** JavaScript primitives used by the source *)

Module JS.

(** [ToBoolean] on a string-or-absent value: [undefined], [null] and
    the empty string are falsy. *)
Definition truthy (v : option string) : bool :=
  match v with
  | Some (String _ _) => true
  | _ => false
  end.

(** [v || d] for a string default [d]. *)
Definition orElse (v : option string) (d : string) : string :=
  match v with
  | Some (String c s) => String c s
  | _ => d
  end.

(** [v || w] where [w] may itself be absent. *)
Definition orOpt (v w : option string) : option string :=
  if truthy v then v else w.

Fixpoint startsWith (pat s : string) : bool :=
  match pat, s with
  | EmptyString, _ => true
  | String a pat', String b s' => if Ascii.eqb a b then startsWith pat' s' else false
  | String _ _, EmptyString => false
  end.

(** [s.includes(pat)] *)
Fixpoint includes (pat s : string) : bool :=
  startsWith pat s ||
  match s with
  | EmptyString => false
  | String _ s' => includes pat s'
  end.

(** [toLowerCase] on the ASCII range; bytes above 127 are kept. *)
Definition lowerChar (c : ascii) : ascii :=
  let n := Ascii.nat_of_ascii c in
  if (65 <=? n) && (n <=? 90) then Ascii.ascii_of_nat (n + 32) else c.

Fixpoint toLowerCase (s : string) : string :=
  match s with
  | EmptyString => EmptyString
  | String c s' => String (lowerChar c) (toLowerCase s')
  end.

(** White space, as [trim] and [\s] know it: the WhiteSpace and
    LineTerminator code points.  A string is the UTF-8 encoding of the
    JavaScript string.  [isSpace] recognises the code points of one byte
    (tab to carriage return, and space), [space2] the one of two bytes
    (U+00A0) and [space3] those of three bytes (U+1680, U+2000 to U+200A,
    U+2028, U+2029, U+202F, U+205F, U+3000, U+FEFF). *)
Definition isSpace (c : ascii) : bool :=
  let n := Ascii.nat_of_ascii c in
  (n =? 32) || ((9 <=? n) && (n <=? 13)).

Definition space2 (a b : ascii) : bool :=
  (Ascii.nat_of_ascii a =? 194) && (Ascii.nat_of_ascii b =? 160).

Definition space3 (a b c : ascii) : bool :=
  let x := Ascii.nat_of_ascii a in
  let y := Ascii.nat_of_ascii b in
  let z := Ascii.nat_of_ascii c in
  (x =? 225) && (y =? 154) && (z =? 128) ||
  (x =? 226) && (y =? 128) &&
    ((128 <=? z) && (z <=? 138) || (z =? 168) || (z =? 169) || (z =? 175)) ||
  (x =? 226) && (y =? 129) && (z =? 159) ||
  (x =? 227) && (y =? 128) && (z =? 128) ||
  (x =? 239) && (y =? 187) && (z =? 191).

(** The string without the white-space code point it begins with, if
    it begins with one. *)
Definition skipSpace (s : string) : option string :=
  match s with
  | EmptyString => None
  | String a r1 =>
      if isSpace a then Some r1
      else match r1 with
           | EmptyString => None
           | String b r2 =>
               if space2 a b then Some r2
               else match r2 with
                    | EmptyString => None
                    | String c r3 => if space3 a b c then Some r3 else None
                    end
           end
  end.

(** [!s.trim()]: the string is empty once trimmed, that is, it is made
    of white space only. *)
Fixpoint blank (s : string) : bool :=
  match s with
  | EmptyString => true
  | String a r1 =>
      if isSpace a then blank r1
      else match r1 with
           | EmptyString => false
           | String b r2 =>
               if space2 a b then blank r2
               else match r2 with
                    | EmptyString => false
                    | String c r3 => if space3 a b c then blank r3 else false
                    end
           end
  end.

(** The Number values the task list computes with: integral time
    values, the two infinities and NaN. *)
Inductive number := Fin (z : Z) | PosInf | NegInf | NaN.

(** [a - b].  Time values are integers; the comparator result is only
    read for its sign, which the rounding of a difference keeps. *)
Definition sub (a b : number) : number :=
  match a, b with
  | NaN, _ | _, NaN => NaN
  | Fin x, Fin y => Fin (x - y)
  | Fin _, PosInf => NegInf
  | Fin _, NegInf => PosInf
  | PosInf, PosInf => NaN
  | PosInf, _ => PosInf
  | NegInf, NegInf => NaN
  | NegInf, _ => NegInf
  end.

(** [v > 0]; false on NaN. *)
Definition gt0 (v : number) : bool :=
  match v with
  | Fin z => (0 <? z)%Z
  | PosInf => true
  | _ => false
  end.

(** [a <= b]; false as soon as one side is NaN. *)
Definition le (a b : number) : Prop :=
  match a, b with
  | NaN, _ | _, NaN => False
  | NegInf, _ => True
  | _, PosInf => True
  | Fin x, Fin y => (x <= y)%Z
  | _, _ => False
  end.

#[global] Instance number_eq_dec : EqDecision number.
Proof. solve_decision. Defined.

(** [Array.prototype.sort(comparefn)].  The comparator's result [v] is
    read as in SortCompare: [x] goes after [y] exactly when [v > 0],
    and a NaN result counts as [+0].  The sort is stable (ECMAScript
    2019).  On a consistent comparator, that is one whose answers, read
    in this way, are those of a total preorder on the elements, every
    conforming engine returns the list computed here.  On any other
    comparator the order is left to the engine: all that holds of every
    engine is that the result is a rearrangement of the list, and the
    list computed here is the one of an engine that inserts the elements
    one by one, from the last to the first. *)
Section Sort.
Context {A : Type} (comparefn : A -> A -> number).

Fixpoint insert (x : A) (l : list A) : list A :=
  match l with
  | [] => [x]
  | y :: l' => if gt0 (comparefn x y) then y :: insert x l' else x :: l
  end.

Fixpoint sort (l : list A) : list A :=
  match l with
  | [] => []
  | x :: l' => insert x (sort l')
  end.
End Sort.

(** [s.trim()]: the white space at the start is skipped code point by
    code point; at the end, the string stops where nothing but white
    space follows. *)
Fixpoint trimStart (s : string) : string :=
  match s with
  | EmptyString => EmptyString
  | String a r1 =>
      if isSpace a then trimStart r1
      else match r1 with
           | EmptyString => s
           | String b r2 =>
               if space2 a b then trimStart r2
               else match r2 with
                    | EmptyString => s
                    | String c r3 => if space3 a b c then trimStart r3 else s
                    end
           end
  end.

Fixpoint trimEnd (s : string) : string :=
  match s with
  | EmptyString => EmptyString
  | String a r => if blank s then EmptyString else String a (trimEnd r)
  end.

Definition trim (s : string) : string := trimEnd (trimStart s).

(** [s.replace(/\s+/g, '-')]: every maximal run of white space becomes
    one dash.  [inRun] tells that the previous code point was white
    space. *)
Definition dashOr (inRun : bool) (out : string) : string :=
  if inRun then out else String "-" out.

Fixpoint dashRuns (inRun : bool) (s : string) : string :=
  match s with
  | EmptyString => EmptyString
  | String a r1 =>
      if isSpace a then dashOr inRun (dashRuns true r1)
      else match r1 with
           | EmptyString => String a (dashRuns false r1)
           | String b r2 =>
               if space2 a b then dashOr inRun (dashRuns true r2)
               else match r2 with
                    | EmptyString => String a (dashRuns false r1)
                    | String c r3 =>
                        if space3 a b c then dashOr inRun (dashRuns true r3)
                        else String a (dashRuns false r1)
                    end
           end
  end.

Definition replaceSpaces (s : string) : string := dashRuns false s.

(** No white-space code point begins at any place of [s]. *)
Definition spaceFree (s : string) : Prop :=
  forall before after, s = before +:+ after -> skipSpace after = None.

End JS.

(* ================================================================= *)
(** ** The hub's task record (shared by both views) *)

Record Task := {
  task_name : string;
  task_priority : option string;
  task_assignee : string;
  task_status : string;
  task_startDate : option string;
  task_dueDate : option string;
  task_notes : option string
}.

(* ================================================================= *)
(** ** Project detail view *)

Module ProjectDetail.

Record SubTask := {
  sub_id : nat;
  sub_status : string;
  sub_name : string;
  sub_assignee : string;
  sub_dueDate : string
}.

(** A row of [response.result.values]: the cells of one sheet row,
    trailing empty cells left out by the provider. *)
Definition Row := list string.

(** The callback of [values.map] in [fetchSheetData]. *)
Definition rowToSubTask (index : nat) (row : Row) : SubTask :=
  {| sub_id := index + 2;
     sub_status := JS.orElse (row !! 2) "Todo";
     sub_name := JS.orElse (row !! 0) "";
     sub_assignee := JS.orElse (row !! 1) "";
     sub_dueDate := JS.orElse (row !! 4) "" |}.

(** [values.map(...).filter(t => t.name)] *)
Definition tasksWithIds (values : list Row) : list SubTask :=
  List.filter (fun t => JS.truthy (Some (sub_name t))) (imap rowToSubTask values).

(** An element of the array parsed from the assistant's reply, and the
    same element once [{ ...t, id }] has tagged it. *)
Record GeneratedTask := {
  gen_name : option string;
  gen_assignee : option string;
  gen_dueDate : option string
}.

Record Suggestion := {
  sug_id : string;
  sug_name : option string;
  sug_assignee : option string;
  sug_dueDate : option string
}.

(** The [useState] cells of the component. *)
Record State := {
  subTasks : list SubTask;
  isLoading : bool;
  error : option string;
  isAdding : bool;
  newSubTaskName : string;
  newSubTaskAssignee : string;
  newSubTaskDueDate : string;
  aiGoalInput : string;
  isGenerating : bool;
  generationError : option string;
  suggestedSubTasks : list Suggestion;
  selectedSubTasks : gset string
}.

Definition initialState : State :=
  {| subTasks := []; isLoading := true; error := None; isAdding := false;
     newSubTaskName := ""; newSubTaskAssignee := ""; newSubTaskDueDate := "";
     aiGoalInput := ""; isGenerating := false; generationError := None;
     suggestedSubTasks := []; selectedSubTasks := ∅ |}.

Definition setSubTasks (v : list SubTask) (s : State) : State :=
  {| subTasks := v; isLoading := isLoading s; error := error s; isAdding := isAdding s;
     newSubTaskName := newSubTaskName s; newSubTaskAssignee := newSubTaskAssignee s;
     newSubTaskDueDate := newSubTaskDueDate s; aiGoalInput := aiGoalInput s;
     isGenerating := isGenerating s; generationError := generationError s;
     suggestedSubTasks := suggestedSubTasks s; selectedSubTasks := selectedSubTasks s |}.
Definition setIsLoading (v : bool) (s : State) : State :=
  {| subTasks := subTasks s; isLoading := v; error := error s; isAdding := isAdding s;
     newSubTaskName := newSubTaskName s; newSubTaskAssignee := newSubTaskAssignee s;
     newSubTaskDueDate := newSubTaskDueDate s; aiGoalInput := aiGoalInput s;
     isGenerating := isGenerating s; generationError := generationError s;
     suggestedSubTasks := suggestedSubTasks s; selectedSubTasks := selectedSubTasks s |}.
Definition setError (v : option string) (s : State) : State :=
  {| subTasks := subTasks s; isLoading := isLoading s; error := v; isAdding := isAdding s;
     newSubTaskName := newSubTaskName s; newSubTaskAssignee := newSubTaskAssignee s;
     newSubTaskDueDate := newSubTaskDueDate s; aiGoalInput := aiGoalInput s;
     isGenerating := isGenerating s; generationError := generationError s;
     suggestedSubTasks := suggestedSubTasks s; selectedSubTasks := selectedSubTasks s |}.
Definition setIsAdding (v : bool) (s : State) : State :=
  {| subTasks := subTasks s; isLoading := isLoading s; error := error s; isAdding := v;
     newSubTaskName := newSubTaskName s; newSubTaskAssignee := newSubTaskAssignee s;
     newSubTaskDueDate := newSubTaskDueDate s; aiGoalInput := aiGoalInput s;
     isGenerating := isGenerating s; generationError := generationError s;
     suggestedSubTasks := suggestedSubTasks s; selectedSubTasks := selectedSubTasks s |}.
Definition setNewSubTaskName (v : string) (s : State) : State :=
  {| subTasks := subTasks s; isLoading := isLoading s; error := error s;
     isAdding := isAdding s; newSubTaskName := v; newSubTaskAssignee := newSubTaskAssignee s;
     newSubTaskDueDate := newSubTaskDueDate s; aiGoalInput := aiGoalInput s;
     isGenerating := isGenerating s; generationError := generationError s;
     suggestedSubTasks := suggestedSubTasks s; selectedSubTasks := selectedSubTasks s |}.
Definition setNewSubTaskAssignee (v : string) (s : State) : State :=
  {| subTasks := subTasks s; isLoading := isLoading s; error := error s;
     isAdding := isAdding s; newSubTaskName := newSubTaskName s; newSubTaskAssignee := v;
     newSubTaskDueDate := newSubTaskDueDate s; aiGoalInput := aiGoalInput s;
     isGenerating := isGenerating s; generationError := generationError s;
     suggestedSubTasks := suggestedSubTasks s; selectedSubTasks := selectedSubTasks s |}.
Definition setNewSubTaskDueDate (v : string) (s : State) : State :=
  {| subTasks := subTasks s; isLoading := isLoading s; error := error s;
     isAdding := isAdding s; newSubTaskName := newSubTaskName s;
     newSubTaskAssignee := newSubTaskAssignee s; newSubTaskDueDate := v;
     aiGoalInput := aiGoalInput s; isGenerating := isGenerating s;
     generationError := generationError s; suggestedSubTasks := suggestedSubTasks s;
     selectedSubTasks := selectedSubTasks s |}.
Definition setAiGoalInput (v : string) (s : State) : State :=
  {| subTasks := subTasks s; isLoading := isLoading s; error := error s;
     isAdding := isAdding s; newSubTaskName := newSubTaskName s;
     newSubTaskAssignee := newSubTaskAssignee s; newSubTaskDueDate := newSubTaskDueDate s;
     aiGoalInput := v; isGenerating := isGenerating s; generationError := generationError s;
     suggestedSubTasks := suggestedSubTasks s; selectedSubTasks := selectedSubTasks s |}.
Definition setIsGenerating (v : bool) (s : State) : State :=
  {| subTasks := subTasks s; isLoading := isLoading s; error := error s;
     isAdding := isAdding s; newSubTaskName := newSubTaskName s;
     newSubTaskAssignee := newSubTaskAssignee s; newSubTaskDueDate := newSubTaskDueDate s;
     aiGoalInput := aiGoalInput s; isGenerating := v; generationError := generationError s;
     suggestedSubTasks := suggestedSubTasks s; selectedSubTasks := selectedSubTasks s |}.
Definition setGenerationError (v : option string) (s : State) : State :=
  {| subTasks := subTasks s; isLoading := isLoading s; error := error s;
     isAdding := isAdding s; newSubTaskName := newSubTaskName s;
     newSubTaskAssignee := newSubTaskAssignee s; newSubTaskDueDate := newSubTaskDueDate s;
     aiGoalInput := aiGoalInput s; isGenerating := isGenerating s; generationError := v;
     suggestedSubTasks := suggestedSubTasks s; selectedSubTasks := selectedSubTasks s |}.
Definition setSuggestedSubTasks (v : list Suggestion) (s : State) : State :=
  {| subTasks := subTasks s; isLoading := isLoading s; error := error s;
     isAdding := isAdding s; newSubTaskName := newSubTaskName s;
     newSubTaskAssignee := newSubTaskAssignee s; newSubTaskDueDate := newSubTaskDueDate s;
     aiGoalInput := aiGoalInput s; isGenerating := isGenerating s;
     generationError := generationError s; suggestedSubTasks := v;
     selectedSubTasks := selectedSubTasks s |}.
Definition setSelectedSubTasks (v : gset string) (s : State) : State :=
  {| subTasks := subTasks s; isLoading := isLoading s; error := error s;
     isAdding := isAdding s; newSubTaskName := newSubTaskName s;
     newSubTaskAssignee := newSubTaskAssignee s; newSubTaskDueDate := newSubTaskDueDate s;
     aiGoalInput := aiGoalInput s; isGenerating := isGenerating s;
     generationError := generationError s; suggestedSubTasks := suggestedSubTasks s;
     selectedSubTasks := v |}.

(** *** Effects

    The calls a handler issues, in order.  A handler is a function from
    the world (component state plus trace) to the world. *)

Inductive Call :=
| SheetsGet (spreadsheetId range : string)
| SheetsUpdate (spreadsheetId range : string) (values : list Row)
| SheetsAppend (spreadsheetId range : string) (values : list Row)
| GenerateContent (model contents : string)
| Alert (message : string).

Record World := { view : State; trace : list Call }.

Definition Eff := World -> World.

Definition skip : Eff := fun w => w.
Definition seq (a b : Eff) : Eff := fun w => b (a w).
Definition update (f : State -> State) : Eff :=
  fun w => {| view := f (view w); trace := trace w |}.
Definition call (c : Call) : Eff :=
  fun w => {| view := view w; trace := trace w ++ [c] |}.

Declare Scope eff_scope.
Delimit Scope eff_scope with eff.
Bind Scope eff_scope with Eff.
Notation "a ;; b" := (seq a b) (at level 100, b at level 200, right associativity) : eff_scope.
Local Open Scope eff_scope.

(** Running a handler on the state it was rendered with. *)
Definition run (h : Eff) (s : State) : World :=
  h {| view := s; trace := [] |}.

(** *** Replies of the services *)

(** The [error] object of a rejected Sheets request, as far as the
    handler reads it: a [code] ([None] when it is missing or is not a
    number) and a [message] ([None] when it is missing or is not a
    string).  The handler tests neither for presence. *)
Record ProviderError := { err_code : option Z; err_message : option string }.

(** Outcome of [values.get]: the [values] of the result ([None] when the
    range is empty), or the rejection [err], of which the handler reads
    [err.result?.error] ([None] when [result] or [error] is missing, as
    on an exception thrown inside the [try] block). *)
Inductive GetReply :=
| GetOk (values : option (list Row))
| GetFailed (err : option ProviderError).

(** Outcome of a call whose result is not read. *)
Inductive Reply := Resolved | Rejected.

(** Outcome of [generateContent] followed by [JSON.parse]: the parsed
    array, or a failure of either step. *)
Inductive GenerateReply :=
| Generated (tasks : list GeneratedTask)
| GenerateFailed.

Definition dquote : string := String "034" "".
Definition squote : string := "'".

(** *** The handlers, for given props [task] and [spreadsheetId] *)

Section Component.
Variable task : Task.
Variable spreadsheetId : string.

(** [err.result?.error?.code === 400 ||
     err.result?.error?.message.includes('Unable to parse range')].
    The optional chain stops at a missing [result] or [error] only: on
    an error object without a message, [message.includes] throws, and
    the test has no value ([None]). *)
Definition tabNotFound (err : option ProviderError) : option bool :=
  match err with
  | None => Some false
  | Some e =>
      if match err_code e with Some code => (code =? 400)%Z | None => false end
      then Some true
      else match err_message e with
           | Some message => Some (JS.includes "Unable to parse range" message)
           | None => None
           end
  end.

Definition notFoundMessage : string :=
  "Could not find a sheet named " +:+ dquote +:+ task_name task +:+ dquote +:+
  ". Make sure a tab in your Google Sheet exactly matches the project name.".

Definition loadFailedMessage : string :=
  "Could not load project details. Please check your connection and try again.".

Definition fetchSheetData (reply : GetReply) : Eff :=
  update (setIsLoading true) ;;
  update (setError None) ;;
  call (SheetsGet spreadsheetId (squote +:+ task_name task +:+ "'!A2:F100")) ;;
  match reply with
  | GetOk values => update (setSubTasks (tasksWithIds (default [] values)))
  | GetFailed err =>
      match tabNotFound err with
      | Some true => update (setError (Some notFoundMessage))
      | Some false => update (setError (Some loadFailedMessage))
      | None => skip
      end
  end ;;
  update (setIsLoading false).

(** The promise of [fetchSheetData] is rejected exactly when its [catch]
    block throws; the [finally] block has run by then. *)
Definition fetchThrows (reply : GetReply) : bool :=
  match reply with
  | GetOk _ => false
  | GetFailed err => match tabNotFound err with Some _ => false | None => true end
  end.

Definition handleUpdateSheet (rowId : nat) (column value : string) (reply : Reply) : Eff :=
  call (SheetsUpdate spreadsheetId
          (squote +:+ task_name task +:+ "'!" +:+ column +:+ pretty rowId)
          [[value]]) ;;
  match reply with
  | Resolved => skip
  | Rejected => call (Alert "Failed to save changes. Please try again.")
  end.

Definition handleAddNewSubTask (s : State) (appendReply : Reply) (getReply : GetReply) : Eff :=
  if JS.blank (newSubTaskName s)
  then call (Alert "Please enter a task name.")
  else
    update (setIsAdding true) ;;
    call (SheetsAppend spreadsheetId (squote +:+ task_name task +:+ "'!A:E")
            [[newSubTaskName s; newSubTaskAssignee s; "Todo"; ""; newSubTaskDueDate s]]) ;;
    match appendReply with
    | Resolved =>
        update (setNewSubTaskName "") ;;
        update (setNewSubTaskAssignee "") ;;
        update (setNewSubTaskDueDate "") ;;
        fetchSheetData getReply ;;
        if fetchThrows getReply
        then call (Alert "Could not add the new sub-task. Please try again.")
        else skip
    | Rejected => call (Alert "Could not add the new sub-task. Please try again.")
    end ;;
    update (setIsAdding false).

Definition tagSuggestion (index : nat) (t : GeneratedTask) : Suggestion :=
  {| sug_id := "gen-" +:+ pretty index;
     sug_name := gen_name t;
     sug_assignee := gen_assignee t;
     sug_dueDate := gen_dueDate t |}.

Definition subTaskPrompt (goal : string) : string :=
  "You are a project management assistant for a production company called TrashTV. The current project is "
  +:+ dquote +:+ task_name task +:+ dquote +:+
  ". Your task is to break down the following high-level goal into a list of smaller, actionable sub-tasks. For each sub-task, provide a name, a suggested assignee (e.g., "
  +:+ dquote +:+ "Editor" +:+ dquote +:+ ", " +:+ dquote +:+ "Producer" +:+ dquote +:+ ", "
  +:+ dquote +:+ "Sammy" +:+ dquote +:+ ", " +:+ dquote +:+ "Jess" +:+ dquote +:+
  "), and a suggested due date in YYYY-MM-DD format. Goal: "
  +:+ dquote +:+ goal +:+ dquote.

Definition handleGenerateSubTasks (s : State) (reply : GenerateReply) : Eff :=
  if JS.blank (aiGoalInput s) || isGenerating s then skip
  else
    update (setIsGenerating true) ;;
    update (setGenerationError None) ;;
    update (setSuggestedSubTasks []) ;;
    update (setSelectedSubTasks ∅) ;;
    call (GenerateContent "gemini-2.5-pro" (subTaskPrompt (aiGoalInput s))) ;;
    match reply with
    | Generated generatedTasks =>
        update (setSuggestedSubTasks (imap tagSuggestion generatedTasks)) ;;
        update (setSelectedSubTasks
                  (list_to_set (imap (fun index _ => "gen-" +:+ pretty index) generatedTasks)))
    | GenerateFailed =>
        update (setGenerationError
                  (Some "Sorry, I couldn't generate sub-tasks for that. Please try rephrasing your goal."))
    end ;;
    update (setIsGenerating false).

Definition handleToggleSuggestedTask (s : State) (taskId : string) : Eff :=
  let newSelection :=
    if decide (taskId ∈ selectedSubTasks s)
    then selectedSubTasks s ∖ {[taskId]}
    else selectedSubTasks s ∪ {[taskId]} in
  update (setSelectedSubTasks newSelection).

(** The callback of [tasksToAdd.map] in [handleAddSelectedSubTasks]. *)
Definition suggestionRow (t : Suggestion) : Row :=
  [JS.orElse (sug_name t) ""; JS.orElse (sug_assignee t) ""; "Todo"; "";
   JS.orElse (sug_dueDate t) ""].

Definition handleAddSelectedSubTasks (s : State) (appendReply : Reply) (getReply : GetReply) : Eff :=
  let tasksToAdd :=
    List.filter (fun t => bool_decide (sug_id t ∈ selectedSubTasks s)) (suggestedSubTasks s) in
  if length tasksToAdd =? 0 then skip
  else
    update (setIsAdding true) ;;
    call (SheetsAppend spreadsheetId (squote +:+ task_name task +:+ "'!A:E")
            (map suggestionRow tasksToAdd)) ;;
    match appendReply with
    | Resolved =>
        update (setAiGoalInput "") ;;
        update (setSuggestedSubTasks []) ;;
        update (setSelectedSubTasks ∅) ;;
        fetchSheetData getReply ;;
        if fetchThrows getReply
        then call (Alert "Could not add the selected sub-tasks. Please try again.")
        else skip
    | Rejected => call (Alert "Could not add the selected sub-tasks. Please try again.")
    end ;;
    update (setIsAdding false).

(** [st.id === id ? { ...st, status: newStatus } : st] *)
Definition withStatus (newStatus : string) (id : nat) (st : SubTask) : SubTask :=
  if sub_id st =? id
  then {| sub_id := sub_id st; sub_status := newStatus; sub_name := sub_name st;
          sub_assignee := sub_assignee st; sub_dueDate := sub_dueDate st |}
  else st.

(** [st.id === id ? { ...st, name: newName } : st] *)
Definition withName (newName : string) (id : nat) (st : SubTask) : SubTask :=
  if sub_id st =? id
  then {| sub_id := sub_id st; sub_status := sub_status st; sub_name := newName;
          sub_assignee := sub_assignee st; sub_dueDate := sub_dueDate st |}
  else st.

Definition handleStatusChange (s : State) (subTask : SubTask) (isChecked : bool) (reply : Reply) : Eff :=
  let newStatus := if isChecked then "Done" else "In Progress" in
  let updatedSubTasks := map (withStatus newStatus (sub_id subTask)) (subTasks s) in
  update (setSubTasks updatedSubTasks) ;;
  handleUpdateSheet (sub_id subTask) "C" newStatus reply.

Definition handleNameChange (s : State) (subTask : SubTask) (newName : string) (reply : Reply) : Eff :=
  let updatedSubTasks := map (withName newName (sub_id subTask)) (subTasks s) in
  update (setSubTasks updatedSubTasks) ;;
  handleUpdateSheet (sub_id subTask) "A" newName reply.

(** *** What the view shows *)

(** The table body is rendered under [!isLoading && !error]. *)
Definition visibleSubTasks (s : State) : list SubTask :=
  if negb (isLoading s) && negb (JS.truthy (error s)) then subTasks s else [].

(** The status checkbox of a row shows [st.status === 'Done']; a click
    delivers the opposite value to [handleStatusChange]. *)
Definition rowChecked (st : SubTask) : bool := String.eqb (sub_status st) "Done".

Definition clickStatus (s : State) (st : SubTask) (reply : Reply) : Eff :=
  handleStatusChange s st (negb (rowChecked st)) reply.

(** A click on the status checkbox of the [i]-th row of the table. *)
Definition clickRow (s : State) (i : nat) (reply : Reply) : Eff :=
  match subTasks s !! i with
  | Some st => clickStatus s st reply
  | None => skip
  end.

(** The status shown in row [i]. *)
Definition statusAt (s : State) (i : nat) : option string :=
  sub_status <$> subTasks s !! i.

(** Two clicks on the checkbox of row [i] bring its status back. *)
Definition RestoredAfterTwoClicks (s : State) (i : nat) (r1 r2 : Reply) : Prop :=
  let s1 := view (run (clickRow s i r1) s) in
  let s2 := view (run (clickRow s1 i r2) s1) in
  statusAt s2 i = statusAt s i.

End Component.

(** *** Reading rows and traces *)

(** The name cell of a row, [row[0] || '']. *)
Definition firstCell (row : Row) : string := JS.orElse (row !! 0) "".

(** The payloads of the append calls of a trace, in order. *)
Definition appendCalls (tr : list Call) : list (list Row) :=
  omap (fun c => match c with SheetsAppend _ _ values => Some values | _ => None end) tr.

(** The single-cell and other writes of a trace: range and payload. *)
Definition updateCalls (tr : list Call) : list (string * list Row) :=
  omap (fun c => match c with SheetsUpdate _ range values => Some (range, values) | _ => None end) tr.

(** The state the selection is kept in: suggestions carry distinct ids,
    and only ids of suggestions are selected. *)
Definition SelectionOfSuggestions (s : State) : Prop :=
  NoDup (sug_id <$> suggestedSubTasks s) /\
  selectedSubTasks s ⊆ list_to_set (sug_id <$> suggestedSubTasks s).

(** Two states of the view that differ in the list of sub-tasks at
    most. *)
Definition SameButSubTasks (s s' : State) : Prop :=
  isLoading s' = isLoading s /\ error s' = error s /\ isAdding s' = isAdding s /\
  newSubTaskName s' = newSubTaskName s /\ newSubTaskAssignee s' = newSubTaskAssignee s /\
  newSubTaskDueDate s' = newSubTaskDueDate s /\ aiGoalInput s' = aiGoalInput s /\
  isGenerating s' = isGenerating s /\ generationError s' = generationError s /\
  suggestedSubTasks s' = suggestedSubTasks s /\ selectedSubTasks s' = selectedSubTasks s.


(** The rejection carries an error object that has no message, and a
    code other than 400. *)
Definition MessageMissing (err : option ProviderError) : Prop :=
  exists e, err = Some e /\ err_code e <> Some 400%Z /\ err_message e = None.

(** *** Sample inputs *)

Definition sampleTask : Task :=
  {| task_name := "Pasty Dragumentary"; task_priority := Some "Low Priority";
     task_assignee := "jess@trashtv.productions"; task_status := "Todo";
     task_startDate := None; task_dueDate := Some "2025-11-27"; task_notes := None |}.

(** Two error objects: one as the Sheets API sends it to a caller
    without access, one that carries a status code only. *)
Definition forbiddenError : ProviderError :=
  {| err_code := Some 403%Z; err_message := Some "The caller does not have permission" |}.

Definition messagelessError : ProviderError :=
  {| err_code := Some 403%Z; err_message := None |}.

Definition sampleRows : list Row := [[""; "x"; "Todo"]; ["Buy props"; "A"; "Done"]].

Definition todoSubTask : SubTask :=
  {| sub_id := 2; sub_status := "Todo"; sub_name := "Book studio";
     sub_assignee := "Sammy"; sub_dueDate := "" |}.

(** A suggestion whose name the assistant left empty, selected. *)
Definition namelessSuggestion : Suggestion :=
  {| sug_id := "gen-0"; sug_name := Some ""; sug_assignee := Some "Editor";
     sug_dueDate := Some "2025-11-01" |}.

Definition namelessSelected : State :=
  setSelectedSubTasks {[ "gen-0" ]} (setSuggestedSubTasks [namelessSuggestion]
    (setIsLoading false initialState)).

(** *** More of the view *)

(** The commit button is rendered with
    [disabled=${isAdding || selectedSubTasks.size === 0}]. *)
Definition addSelectedDisabled (s : State) : bool :=
  isAdding s || (size (selectedSubTasks s) =? 0).

(** [onBlur] of a name field:
    [e.currentTarget.value !== st.name && handleNameChange(st, value)]. *)
Definition blurName (task : Task) (spreadsheetId : string) (s : State)
    (st : SubTask) (value : string) (reply : Reply) : Eff :=
  if String.eqb value (sub_name st) then skip
  else handleNameChange task spreadsheetId s st value reply.

(** The read calls of a trace: their ranges. *)
Definition getCalls (tr : list Call) : list string :=
  omap (fun c => match c with SheetsGet _ range => Some range | _ => None end) tr.

(** The alerts of a trace. *)
Definition alerts (tr : list Call) : list string :=
  omap (fun c => match c with Alert message => Some message | _ => None end) tr.

(** The assistant calls of a trace: their prompts. *)
Definition generateCalls (tr : list Call) : list string :=
  omap (fun c => match c with GenerateContent _ contents => Some contents | _ => None end) tr.

(** A state in which a goal has been typed, and a reply to it. *)
Definition goalTyped : State :=
  setAiGoalInput "Plan the promotional video shoot" (setIsLoading false initialState).

Definition sampleGenerated : list GeneratedTask :=
  [ {| gen_name := Some "Book studio"; gen_assignee := Some "Producer";
       gen_dueDate := Some "2025-11-03" |};
    {| gen_name := Some "Scout props"; gen_assignee := None; gen_dueDate := None |};
    {| gen_name := Some "Edit teaser"; gen_assignee := Some "Editor";
       gen_dueDate := Some "2025-11-10" |} ].

End ProjectDetail.

(* ================================================================= *)
(** ** A host for [Date]

    [new Date(s).getTime()] belongs to the engine.  The hub view takes it
    as a parameter; this module gives one instance, used to run the view
    on concrete lists: a host in the UTC zone that accepts the date-time
    format [YYYY-MM-DDTHH:mm:ss] and answers NaN ([None]) to anything
    else, including a conforming string with a month or day out of
    bounds. *)

Module UtcHost.

Definition digit (c : ascii) : option Z :=
  let n := Ascii.nat_of_ascii c in
  if (48 <=? n) && (n <=? 57) then Some (Z.of_nat (n - 48)) else None.

Definition number2 (a b : ascii) : option Z :=
  match digit a, digit b with
  | Some x, Some y => Some (10 * x + y)%Z
  | _, _ => None
  end.

Definition number4 (a b c d : ascii) : option Z :=
  match number2 a b, number2 c d with
  | Some x, Some y => Some (100 * x + y)%Z
  | _, _ => None
  end.

Definition leapYear (y : Z) : bool :=
  ((y mod 4 =? 0) && negb (y mod 100 =? 0) || (y mod 400 =? 0))%Z.

Definition daysInMonth (y m : Z) : Z :=
  (if m =? 2 then (if leapYear y then 29 else 28)
   else if (m =? 4) || (m =? 6) || (m =? 9) || (m =? 11) then 30 else 31)%Z.

(** Days from 1970-01-01 to the given civil date. *)
Definition daysFromCivil (y m d : Z) : Z :=
  (let y' := if m <=? 2 then y - 1 else y in
   let era := y' / 400 in
   let yoe := y' - era * 400 in
   let mp := if 2 <? m then m - 3 else m + 9 in
   let doy := (153 * mp + 2) / 5 + d - 1 in
   let doe := yoe * 365 + yoe / 4 - yoe / 100 + doy in
   era * 146097 + doe - 719468)%Z.

Definition makeTime (y m d h mi sec : Z) : option Z :=
  (if (1 <=? m) && (m <=? 12) && (1 <=? d) && (d <=? daysInMonth y m) &&
      (h <? 24) && (mi <? 60) && (sec <? 60)
   then Some (daysFromCivil y m d * 86400000 + h * 3600000 + mi * 60000 + sec * 1000)
   else None)%Z.

Definition getTime (s : string) : option Z :=
  match list_ascii_of_string s with
  | [y1; y2; y3; y4; c1; m1; m2; c2; d1; d2; c3; h1; h2; c4; n1; n2; c5; s1; s2] =>
      if Ascii.eqb c1 "-" && Ascii.eqb c2 "-" && Ascii.eqb c3 "T" &&
         Ascii.eqb c4 ":" && Ascii.eqb c5 ":"
      then
        match number4 y1 y2 y3 y4, number2 m1 m2, number2 d1 d2,
              number2 h1 h2, number2 n1 n2, number2 s1 s2 with
        | Some y, Some m, Some d, Some h, Some mi, Some sec => makeTime y m d h mi sec
        | _, _, _, _, _, _ => None
        end
      else None
  | _ => None
  end.

End UtcHost.

(* ================================================================= *)
(** ** Hub view *)

Module App.

(** The [error] cell holds what is rendered in the error box: a plain
    message, or the [TroubleshootingError] component with the fields it
    prints. *)
Inductive ErrorView :=
| Message (text : string)
| Troubleshooting (shownType shownMessage origin : string).

Inductive Tab := Jobs | Calendar.

Record State := {
  tasks : list Task;
  newTaskInput : string;
  isLoading : bool;
  error : option ErrorView;
  activeTab : Tab;
  selectedTask : option Task;
  activeFilter : string;
  gapiReady : bool;
  isSignedIn : bool;
  spreadsheetId : option string;
  tokenClient : bool
}.

Definition mkTask (name priority assignee status : string)
    (startDate dueDate notes : option string) : Task :=
  {| task_name := name; task_priority := Some priority; task_assignee := assignee;
     task_status := status; task_startDate := startDate; task_dueDate := dueDate;
     task_notes := notes |}.

(** The sample set the task list is seeded with. *)
Definition initialTasks : list Task := [
  mkTask "Chai x Pasty GRWM" "High Priority"
     "Taylor Trash" "In Progress" (Some "2025-10-20") (Some "2025-10-24")
     (Some "Need to add in viewing party footage, needs SH review & sign off");
  mkTask "Taylor RPDR Audition Tape" "High Priority"
     "Taylor Trash" "In Progress" (Some "2025-10-20") (Some "2025-10-27") (Some "TT to do");
  mkTask "TrashTV Logo Design" "High Priority"
     "Taylor Trash" "In Progress" None (Some "2025-10-24") (Some "SH - TT review");
  mkTask "Follow up with National Lottery Grant" "High Priority"
     "Taylor Trash" "In Progress" None None (Some "TT to do");
  mkTask "Follow up with ITV Grant" "High Priority"
     "Taylor Trash" "Todo" None None (Some "TT to do - needs SH support");
  mkTask "Access to Work Headphones for Jess" "High Priority"
     "Taylor Trash" "Todo" None None (Some "TT to do - needs SH support");
  mkTask "Pasty Oversize Photoshoot" "Low Priority"
     "sammy@trashtv.productions" "Todo" (Some "2025-10-24") (Some "2025-10-24")
     (Some "SH waiting to hear back from Mikis");
  mkTask "The Gold Rush Pitch Sizzle Reel" "Low Priority"
     "sammy@trashtv.productions" "In Progress" None (Some "2025-11-28") (Some "Ongoing");
  mkTask "Pasty Dragumentary" "Low Priority"
     "jess@trashtv.productions" "Todo" None (Some "2025-11-27") None;
  mkTask "Sweet Tea x Jan podcast content" "Low Priority"
     "jess@trashtv.productions" "Todo" None (Some "2025-11-27") None;
  mkTask "DragCon 2025 Interviews" "Low Priority"
     "sammy@trashtv.productions" "In Progress" None (Some "2026-01-10") None;
  mkTask "Sweet Tea x Michael Marouli YT content" "Low Priority"
     "jess@trashtv.productions" "Todo" None None None;
  mkTask "Sweet Tea x Bobby Summers YT content" "Low Priority"
     "sammy@trashtv.productions" "In Progress" None None None;
  mkTask "Sweet Tea x Lawrence Chaney YT content" "Low Priority"
     "jess@trashtv.productions" "Todo" None None None;
  mkTask "Follow up on FSB Grant" "Low Priority" "Taylor Trash" "Todo" None None None;
  mkTask "Follow up with BFi Grant" "Low Priority" "Taylor Trash" "Todo" None None None;
  mkTask "Chai x Pasty 'Hot Ones'" "Mid-level Priority"
     "jess@trashtv.productions" "Todo" None (Some "2025-10-27") None;
  mkTask "Anita Piss Trashy Takeover video" "Mid-level Priority"
     "sammy@trashtv.productions" "In Progress" None None None;
  mkTask "Follow up with Tottenham Grant" "Mid-level Priority"
     "Taylor Trash" "Todo" None None None
].

Definition initialState : State :=
  {| tasks := initialTasks; newTaskInput := ""; isLoading := false; error := None;
     activeTab := Jobs; selectedTask := None; activeFilter := "all";
     gapiReady := false; isSignedIn := false; spreadsheetId := None;
     tokenClient := false |}.

Definition setTasks (v : list Task) (s : State) : State :=
  {| tasks := v; newTaskInput := newTaskInput s; isLoading := isLoading s; error := error s;
     activeTab := activeTab s; selectedTask := selectedTask s; activeFilter := activeFilter s;
     gapiReady := gapiReady s; isSignedIn := isSignedIn s; spreadsheetId := spreadsheetId s;
     tokenClient := tokenClient s |}.
Definition setNewTaskInput (v : string) (s : State) : State :=
  {| tasks := tasks s; newTaskInput := v; isLoading := isLoading s; error := error s;
     activeTab := activeTab s; selectedTask := selectedTask s; activeFilter := activeFilter s;
     gapiReady := gapiReady s; isSignedIn := isSignedIn s; spreadsheetId := spreadsheetId s;
     tokenClient := tokenClient s |}.
Definition setIsLoading (v : bool) (s : State) : State :=
  {| tasks := tasks s; newTaskInput := newTaskInput s; isLoading := v; error := error s;
     activeTab := activeTab s; selectedTask := selectedTask s; activeFilter := activeFilter s;
     gapiReady := gapiReady s; isSignedIn := isSignedIn s; spreadsheetId := spreadsheetId s;
     tokenClient := tokenClient s |}.
Definition setError (v : option ErrorView) (s : State) : State :=
  {| tasks := tasks s; newTaskInput := newTaskInput s; isLoading := isLoading s; error := v;
     activeTab := activeTab s; selectedTask := selectedTask s; activeFilter := activeFilter s;
     gapiReady := gapiReady s; isSignedIn := isSignedIn s; spreadsheetId := spreadsheetId s;
     tokenClient := tokenClient s |}.
Definition setActiveTab (v : Tab) (s : State) : State :=
  {| tasks := tasks s; newTaskInput := newTaskInput s; isLoading := isLoading s;
     error := error s; activeTab := v; selectedTask := selectedTask s;
     activeFilter := activeFilter s; gapiReady := gapiReady s; isSignedIn := isSignedIn s;
     spreadsheetId := spreadsheetId s; tokenClient := tokenClient s |}.
Definition setSelectedTask (v : option Task) (s : State) : State :=
  {| tasks := tasks s; newTaskInput := newTaskInput s; isLoading := isLoading s;
     error := error s; activeTab := activeTab s; selectedTask := v;
     activeFilter := activeFilter s; gapiReady := gapiReady s; isSignedIn := isSignedIn s;
     spreadsheetId := spreadsheetId s; tokenClient := tokenClient s |}.
Definition setActiveFilter (v : string) (s : State) : State :=
  {| tasks := tasks s; newTaskInput := newTaskInput s; isLoading := isLoading s;
     error := error s; activeTab := activeTab s; selectedTask := selectedTask s;
     activeFilter := v; gapiReady := gapiReady s; isSignedIn := isSignedIn s;
     spreadsheetId := spreadsheetId s; tokenClient := tokenClient s |}.
Definition setGapiReady (v : bool) (s : State) : State :=
  {| tasks := tasks s; newTaskInput := newTaskInput s; isLoading := isLoading s;
     error := error s; activeTab := activeTab s; selectedTask := selectedTask s;
     activeFilter := activeFilter s; gapiReady := v; isSignedIn := isSignedIn s;
     spreadsheetId := spreadsheetId s; tokenClient := tokenClient s |}.
Definition setIsSignedIn (v : bool) (s : State) : State :=
  {| tasks := tasks s; newTaskInput := newTaskInput s; isLoading := isLoading s;
     error := error s; activeTab := activeTab s; selectedTask := selectedTask s;
     activeFilter := activeFilter s; gapiReady := gapiReady s; isSignedIn := v;
     spreadsheetId := spreadsheetId s; tokenClient := tokenClient s |}.
Definition setSpreadsheetId (v : option string) (s : State) : State :=
  {| tasks := tasks s; newTaskInput := newTaskInput s; isLoading := isLoading s;
     error := error s; activeTab := activeTab s; selectedTask := selectedTask s;
     activeFilter := activeFilter s; gapiReady := gapiReady s; isSignedIn := isSignedIn s;
     spreadsheetId := v; tokenClient := tokenClient s |}.
Definition setTokenClient (v : bool) (s : State) : State :=
  {| tasks := tasks s; newTaskInput := newTaskInput s; isLoading := isLoading s;
     error := error s; activeTab := activeTab s; selectedTask := selectedTask s;
     activeFilter := activeFilter s; gapiReady := gapiReady s; isSignedIn := isSignedIn s;
     spreadsheetId := spreadsheetId s; tokenClient := v |}.

(** *** Identity flow *)

(** The value handed to [error_callback]: a string, an object with
    optional [type], [error] and [message], or nothing. *)
Record ErrorObject := {
  eo_type : option string;
  eo_error : option string;
  eo_message : option string
}.

Inductive IdentityError :=
| ErrString (text : string)
| ErrObject (o : ErrorObject)
| ErrNullish.

(** [typeof error === 'string' ? error : error?.type || error?.error || ''] *)
Definition errorType (e : IdentityError) : string :=
  match e with
  | ErrString text => text
  | ErrObject o => JS.orElse (JS.orOpt (eo_type o) (eo_error o)) ""
  | ErrNullish => ""
  end.

(** [(typeof error === 'string' ? error : error?.message || '').toLowerCase()] *)
Definition errorMessageText (e : IdentityError) : string :=
  JS.toLowerCase
    match e with
    | ErrString text => text
    | ErrObject o => JS.orElse (eo_message o) ""
    | ErrNullish => ""
    end.

(** The test guarding [setError(null)] in [error_callback]. *)
Definition popupClosed (e : IdentityError) : bool :=
  String.eqb (errorType e) "popup_closed_by_user" ||
  String.eqb (errorType e) "popup_closed" ||
  JS.includes "popup window closed" (errorMessageText e) ||
  JS.includes "popup closed" (errorMessageText e) ||
  JS.includes "window closed" (errorMessageText e).

(** What [TroubleshootingError] prints for [error]:
    [error?.type || 'No type'], [error?.message || 'No message'] and
    [window.location.origin]. *)
Definition troubleshootingError (origin : string) (e : IdentityError) : ErrorView :=
  match e with
  | ErrObject o =>
      Troubleshooting (JS.orElse (eo_type o) "No type") (JS.orElse (eo_message o) "No message") origin
  | _ => Troubleshooting "No type" "No message" origin
  end.

Definition error_callback (origin : string) (e : IdentityError) (s : State) : State :=
  if popupClosed e then setError None s
  else setError (Some (troubleshootingError origin e)) s.

(** The token callback; [access_token] is the token of the response,
    absent when the response or the token is. *)
Definition callback (access_token : option string) (s : State) : State :=
  if JS.truthy access_token then setIsSignedIn true s
  else setError (Some (Message "Authentication failed. Please try again.")) s.

Definition handleAuthClick (s : State) : State :=
  let s' := setError None s in
  if tokenClient s then s'
  else setError (Some (Message "Google Sign-In is not ready yet. Please wait a moment.")) s'.

Definition handleSaveSpreadsheetId (id : string) (s : State) : State :=
  setSpreadsheetId (Some id) s.

Definition handleChangeSpreadsheet (s : State) : State :=
  setSpreadsheetId None s.

(** *** Single-task extraction *)

(** The object parsed from the assistant's reply; a field is [None] when
    the reply leaves it out. *)
Record TaskData := {
  td_name : option string;
  td_assignee : option string;
  td_dueDate : option string;
  td_priority : option string;
  td_notes : option string
}.

(** Outcome of [generateContent] followed by [JSON.parse]. *)
Inductive ExtractReply :=
| Extracted (newTaskData : TaskData)
| ExtractFailed.

(** The [required] list of the schema sent with the request. *)
Definition schemaRequired : list string := ["name"; "assignee"; "dueDate"; "priority"].

(** [{ ...newTaskData, status: 'Todo', startDate: null }] *)
Definition newTask (d : TaskData) : Task :=
  {| task_name := JS.orElse (td_name d) "";
     task_priority := td_priority d;
     task_assignee := JS.orElse (td_assignee d) "";
     task_status := "Todo";
     task_startDate := None;
     task_dueDate := td_dueDate d;
     task_notes := td_notes d |}.

Definition sorryMessage : string :=
  "Sorry, I couldn't understand that. Please try rephrasing your request.".

Definition handleAddTask (reply : ExtractReply) (s : State) : State :=
  if JS.blank (newTaskInput s) || isLoading s then s
  else
    let s1 := setError None (setIsLoading true s) in
    let s2 :=
      match reply with
      | Extracted newTaskData =>
          if JS.truthy (td_name newTaskData) && JS.truthy (td_assignee newTaskData) &&
             JS.truthy (td_dueDate newTaskData)
          then setNewTaskInput "" (setTasks (tasks s1 ++ [newTask newTaskData]) s1)
          else setError (Some (Message sorryMessage)) s1
      | ExtractFailed => setError (Some (Message sorryMessage)) s1
      end in
    setIsLoading false s2.

Definition handleTaskClick (t : Task) (s : State) : State := setSelectedTask (Some t) s.
Definition handleBackClick (s : State) : State := setSelectedTask None s.

(** *** Rendering *)

Inductive Screen :=
| Initializing
| SignedOut
| NeedsSetup
| TaskDetail (t : Task)
| TaskList.

Definition screen (s : State) : Screen :=
  if negb (gapiReady s) then Initializing
  else if negb (isSignedIn s) then SignedOut
  else if negb (JS.truthy (spreadsheetId s)) then NeedsSetup
  else match selectedTask s with
       | Some t => TaskDetail t
       | None => TaskList
       end.

(** The sign-in button is rendered with [disabled=${!tokenClient}]. *)
Definition signInEnabled (s : State) : bool := tokenClient s.

Section TaskListView.
(** [new Date(s).getTime()] of the host; [None] is NaN. *)
Variable Date_getTime : string -> option Z.

(** [t.dueDate ? new Date(t.dueDate + 'T00:00:00').getTime() : Infinity] *)
Definition dueTime (t : Task) : JS.number :=
  if JS.truthy (task_dueDate t)
  then match Date_getTime (default "" (task_dueDate t) +:+ "T00:00:00") with
       | Some ms => JS.Fin ms
       | None => JS.NaN
       end
  else JS.PosInf.

(** The comparator passed to [sort]. *)
Definition compareDue (a b : Task) : JS.number := JS.sub (dueTime a) (dueTime b).

(** [activeFilter === 'all' || task.assignee === activeFilter] *)
Definition matchesFilter (activeFilter : string) (t : Task) : bool :=
  String.eqb activeFilter "all" || String.eqb (task_assignee t) activeFilter.

(** The items of the task list, in the order they are rendered. *)
Definition renderedTasks (activeFilter : string) (tasks : list Task) : list Task :=
  JS.sort compareDue (List.filter (matchesFilter activeFilter) tasks).

(** *** The order the list is specified to have *)

Definition hasDueDate (t : Task) : bool := JS.truthy (task_dueDate t).

(** The due date of [t] is unset or empty, or the host reads it,
    followed by the time of day "T00:00:00", as a point in time. *)
Definition dueDateParses (t : Task) : Prop :=
  forall d, task_dueDate t = Some d -> d <> "" ->
    exists ms, Date_getTime (d +:+ "T00:00:00") = Some ms.

(** The moment a task is due, by which the list is specified to be
    ordered: the start of the day of its due date, as the host reads it
    ([NaN] if it cannot); a task without due date is due after every
    dated one. *)
Definition dueMoment (t : Task) : JS.number :=
  match task_dueDate t with
  | None | Some EmptyString => JS.PosInf
  | Some d =>
      match Date_getTime (d +:+ "T00:00:00") with
      | Some ms => JS.Fin ms
      | None => JS.NaN
      end
  end.

(** Filter semantics: the sentinel, or an exact match on the assignee. *)
Definition Matches (activeFilter : string) (t : Task) : Prop :=
  activeFilter = "all" \/ task_assignee t = activeFilter.

#[global] Instance Matches_dec activeFilter t : Decision (Matches activeFilter t).
Proof. unfold Matches. apply _. Defined.

(** [shown] lists exactly the tasks of [tasks] that match the filter,
    by ascending due date with undated tasks last (an unset due date
    counts as [Infinity]), tasks of equal due date in the order of
    [tasks]. *)
Record ListedByDueDate (activeFilter : string) (tasks shown : list Task) : Prop := {
  listed_exactly :
    shown ≡ₚ filter (Matches activeFilter) tasks;
  listed_ascending :
    forall i j a b, i < j -> shown !! i = Some a -> shown !! j = Some b ->
      JS.le (dueMoment a) (dueMoment b);
  listed_undated_last :
    forall i j a b, shown !! i = Some a -> shown !! j = Some b ->
      hasDueDate a = true -> hasDueDate b = false -> i < j;
  listed_stable :
    forall v, filter (fun t => dueMoment t = v) shown
            = filter (fun t => dueMoment t = v) (filter (Matches activeFilter) tasks)
}.

End TaskListView.

(** *** Sample inputs *)

Definition undatedTask : Task :=
  {| task_name := "Follow up with ITV Grant"; task_priority := Some "High Priority";
     task_assignee := "Taylor Trash"; task_status := "Todo"; task_startDate := None;
     task_dueDate := None; task_notes := None |}.

(** A task as the assistant can return it: the due date is a non-empty
    string that is no calendar date (month 13). *)
Definition misdatedTask : Task :=
  {| task_name := "Edit sizzle reel"; task_priority := Some "Low Priority";
     task_assignee := "jess@trashtv.productions"; task_status := "Todo";
     task_startDate := None; task_dueDate := Some "2025-13-01"; task_notes := None |}.

(** A reply of the assistant that leaves [priority] out, and the state
    in which the request was typed. *)
Definition noPriorityData : TaskData :=
  {| td_name := Some "Edit sizzle reel"; td_assignee := Some "jess@trashtv.productions";
     td_dueDate := Some "2025-11-07"; td_priority := None; td_notes := None |}.

Definition requestTyped : State :=
  setNewTaskInput "Edit sizzle reel for Jess, due next Friday"
    (setSpreadsheetId (Some "sheet-1") (setIsSignedIn true (setTokenClient true
      (setGapiReady true initialState)))).

(** *** Cancellation, as the identity flow signals it *)

Definition closedPhrases : list string :=
  ["popup window closed"; "popup closed"; "window closed"].

(** The type an error carries: the error itself when it is a string;
    for an object its [type], or its [error] field when it has no type
    or an empty one. *)
Definition CarriesType (e : IdentityError) (type : string) : Prop :=
  match e with
  | ErrString text => text = type
  | ErrObject o =>
      eo_type o = Some type \/
      ((eo_type o = None \/ eo_type o = Some "") /\ eo_error o = Some type)
  | ErrNullish => False
  end.

(** The text of an error: the error itself when it is a string, the
    [message] of an object. *)
Definition CarriesText (e : IdentityError) (text : string) : Prop :=
  match e with
  | ErrString s => s = text
  | ErrObject o => eo_message o = Some text
  | ErrNullish => False
  end.

(** The error carries a popup-closed type, or its text, letter case
    apart, contains one of the closed-popup phrases. *)
Definition Cancelled (e : IdentityError) : Prop :=
  CarriesType e "popup_closed_by_user" \/
  CarriesType e "popup_closed" \/
  exists phrase text before after,
    phrase ∈ closedPhrases /\ CarriesText e text /\
    JS.toLowerCase text = before +:+ phrase +:+ after.

(** *** Start-up *)

(** [initializeApis]: [loaded] tells whether the two scripts and the
    client initialisation went through.  Either way the view leaves the
    initialising screen; a token client exists only on success. *)
Definition initializeApis (loaded : bool) (s : State) : State :=
  if loaded then setGapiReady true (setTokenClient true s)
  else setGapiReady true
         (setError (Some (Message
            "Could not load Google services. Check your internet connection or browser extensions (e.g., ad-blockers)."))
            s).

(** *** Classes of a task item *)

(** [`priority-${task.priority.replace(/\s+/g, '-').toLowerCase()}`];
    [None] is the TypeError of [replace] on a missing priority. *)
Definition priorityClass (t : Task) : option string :=
  match task_priority t with
  | Some priority => Some ("priority-" +:+ JS.toLowerCase (JS.replaceSpaces priority))
  | None => None
  end.

(** [`status-${task.status.replace(/\s+/g, '-').toLowerCase()}`] *)
Definition statusClass (t : Task) : string :=
  "status-" +:+ JS.toLowerCase (JS.replaceSpaces (task_status t)).

(** The classes of the items of a list, in order; [None] when the
    rendering of one item throws. *)
Definition itemClasses (shown : list Task) : option (list string) :=
  mapM priorityClass shown.

End App.

(* ================================================================= *)
(** ** Setup form *)

Module Setup.

(** What [handleSave] does with the text of the field: hand the trimmed
    id to [onSave], or alert. *)
Inductive Outcome :=
| Saved (id : string)
| Alerted (message : string).

Definition handleSave (inputId : string) : Outcome :=
  if JS.truthy (Some (JS.trim inputId)) then Saved (JS.trim inputId)
  else Alerted "Please enter a valid Spreadsheet ID.".

(** [if (e.key === 'Enter') handleSave()]; [None] when nothing happens. *)
Definition handleKeyPress (key inputId : string) : option Outcome :=
  if String.eqb key "Enter" then Some (handleSave inputId) else None.

End Setup.

(* ================================================================= *)
(** ** The hub view with the browser's local storage *)

Module Page.

Record Page := { app : App.State; localStorage : gmap string string }.

(** First render: the initial state, then the effect that reads
    [localStorage.getItem('spreadsheetId')]. *)
Definition mount (storage : gmap string string) : Page :=
  let savedId := storage !! "spreadsheetId" in
  {| app := if JS.truthy savedId then App.setSpreadsheetId savedId App.initialState
            else App.initialState;
     localStorage := storage |}.

Definition handleSaveSpreadsheetId (id : string) (p : Page) : Page :=
  {| app := App.handleSaveSpreadsheetId id (app p);
     localStorage := <["spreadsheetId" := id]> (localStorage p) |}.

Definition handleChangeSpreadsheet (p : Page) : Page :=
  {| app := App.handleChangeSpreadsheet (app p);
     localStorage := delete "spreadsheetId" (localStorage p) |}.

(** The setup form, wired with [onSave=${handleSaveSpreadsheetId}]. *)
Definition saveFromSetup (inputId : string) (p : Page) : Page :=
  match Setup.handleSave inputId with
  | Setup.Saved id => handleSaveSpreadsheetId id p
  | Setup.Alerted _ => p
  end.

(** A handler of the hub that does not touch the storage. *)
Definition lift (h : App.State -> App.State) (p : Page) : Page :=
  {| app := h (app p); localStorage := localStorage p |}.

End Page.

(* ================================================================= *)
(** * Properties *)

(* ================================================================= *)
(** ** Strings and sorting *)

Section StringFacts.

Lemma startsWith_append pat rest : JS.startsWith pat (pat +:+ rest) = true.
Proof.
  induction pat as [|a pat IH]; simpl.
  - reflexivity.
  - rewrite Ascii.eqb_refl. exact IH.
Qed.

Lemma startsWith_split pat s :
  JS.startsWith pat s = true -> exists rest, s = pat +:+ rest.
Proof.
  revert s. induction pat as [|a pat IH]; intros s H.
  - exists s. reflexivity.
  - destruct s as [|b s]; simpl in H; [discriminate|].
    destruct (Ascii.eqb a b) eqn:E; [|discriminate].
    apply Ascii.eqb_eq in E. subst b.
    destruct (IH _ H) as [rest ->]. exists rest. reflexivity.
Qed.

Lemma includes_startsWith pat s : JS.startsWith pat s = true -> JS.includes pat s = true.
Proof. intros H. destruct s; simpl; rewrite H; reflexivity. Qed.

Lemma includes_append before pat after :
  JS.includes pat (before +:+ pat +:+ after) = true.
Proof.
  induction before as [|c before IH]; simpl.
  - apply includes_startsWith. exact (startsWith_append pat after).
  - rewrite IH. apply orb_true_r.
Qed.

Lemma includes_split pat s :
  JS.includes pat s = true -> exists before after, s = before +:+ pat +:+ after.
Proof.
  induction s as [|c s IH]; simpl; intros H.
  - apply orb_prop in H as [H|H]; [|discriminate].
    apply startsWith_split in H as [rest ->]. exists "", rest. reflexivity.
  - apply orb_prop in H as [H|H].
    + apply startsWith_split in H as [rest ->]. exists "", rest. reflexivity.
    + destruct (IH H) as (before & after & ->).
      exists (String c before), after. reflexivity.
Qed.

End StringFacts.

(** White space is skipped one code point at a time; the functions that
    skip it unfold along [JS.skipSpace]. *)
Section WhiteSpaceFacts.

Ltac by_skip s unfold_it :=
  let a := fresh "a" in let b := fresh "b" in let c := fresh "c" in
  let r1 := fresh "r" in let r2 := fresh "r" in let r3 := fresh "r" in
  let Ea := fresh "Ea" in let Eb := fresh "Eb" in let Ec := fresh "Ec" in
  destruct s as [|a r1]; [reflexivity|];
  cbn [JS.skipSpace]; destruct (JS.isSpace a) eqn:Ea;
    [unfold_it; by rewrite Ea|];
  destruct r1 as [|b r2]; [unfold_it; by rewrite Ea|];
  destruct (JS.space2 a b) eqn:Eb; [unfold_it; by rewrite Ea, Eb|];
  destruct r2 as [|c r3]; [unfold_it; by rewrite Ea, Eb|];
  destruct (JS.space3 a b c) eqn:Ec; unfold_it; by rewrite Ea, Eb, Ec.

Lemma blank_skip s :
  JS.blank s =
  match s with
  | EmptyString => true
  | _ => match JS.skipSpace s with Some r => JS.blank r | None => false end
  end.
Proof.
  by_skip s ltac:(cbn [JS.blank]).
Qed.

Lemma trimStart_skip s :
  JS.trimStart s =
  match JS.skipSpace s with Some r => JS.trimStart r | None => s end.
Proof.
  by_skip s ltac:(cbn [JS.trimStart]).
Qed.

Lemma dashRuns_skip inRun s :
  JS.dashRuns inRun s =
  match JS.skipSpace s with
  | Some r => JS.dashOr inRun (JS.dashRuns true r)
  | None =>
      match s with
      | EmptyString => EmptyString
      | String a r => String a (JS.dashRuns false r)
      end
  end.
Proof.
  by_skip s ltac:(cbn [JS.dashRuns]).
Qed.

Lemma skipSpace_split s r :
  JS.skipSpace s = Some r ->
  exists w, s = w +:+ r /\ w <> "" /\ JS.skipSpace w = Some "".
Proof.
  destruct s as [|a r1]; [discriminate|]. cbn [JS.skipSpace].
  destruct (JS.isSpace a) eqn:Ea.
  { intros [= <-]. exists (String a ""). cbn [JS.skipSpace]. by rewrite Ea. }
  destruct r1 as [|b r2]; [discriminate|].
  destruct (JS.space2 a b) eqn:Eb.
  { intros [= <-]. exists (String a (String b "")). cbn [JS.skipSpace].
    by rewrite Ea, Eb. }
  destruct r2 as [|c r3]; [discriminate|].
  destruct (JS.space3 a b c) eqn:Ec; [|discriminate].
  intros [= <-]. exists (String a (String b (String c ""))). cbn [JS.skipSpace].
  by rewrite Ea, Eb, Ec.
Qed.

Lemma skipSpace_shorter s r :
  JS.skipSpace s = Some r -> String.length r < String.length s.
Proof.
  intros (w & -> & Hw & _)%skipSpace_split.
  destruct w as [|a w]; [done|]. clear Hw.
  change (String a w +:+ r) with (String a (w +:+ r)). cbn [String.length].
  induction w as [|b w IH]; [change ("" +:+ r) with r; lia|].
  change (String b w +:+ r) with (String b (w +:+ r)). cbn [String.length]. lia.
Qed.

Lemma skipSpace_app s r rest :
  JS.skipSpace s = Some r -> JS.skipSpace (s +:+ rest) = Some (r +:+ rest).
Proof.
  destruct s as [|a r1]; [discriminate|]. cbn [JS.skipSpace].
  change (String a r1 +:+ rest) with (String a (r1 +:+ rest)). cbn [JS.skipSpace].
  destruct (JS.isSpace a) eqn:Ea; [by intros [= <-]|].
  destruct r1 as [|b r2]; [discriminate|].
  change (String b r2 +:+ rest) with (String b (r2 +:+ rest)). cbv iota.
  destruct (JS.space2 a b) eqn:Eb; [by intros [= <-]|].
  destruct r2 as [|c r3]; [discriminate|].
  change (String c r3 +:+ rest) with (String c (r3 +:+ rest)). cbv iota.
  destruct (JS.space3 a b c) eqn:Ec; [by intros [= <-]|discriminate].
Qed.

Lemma skipSpace_head a r : JS.skipSpace (String a r) = None -> JS.isSpace a = false.
Proof. cbn [JS.skipSpace]. by destruct (JS.isSpace a). Qed.

(** Induction along the scan of a string, code point by code point where
    it holds white space and byte by byte elsewhere. *)
Lemma scan_ind (P : string -> Prop) :
  P "" ->
  (forall s r, JS.skipSpace s = Some r -> P r -> P s) ->
  (forall a r, JS.skipSpace (String a r) = None -> P r -> P (String a r)) ->
  forall s, P s.
Proof.
  intros Hnil Hskip Hbyte s.
  remember (String.length s) as n eqn:Hn.
  revert s Hn. induction n as [n IH] using lt_wf_ind. intros s ->.
  destruct s as [|a r]; [exact Hnil|].
  destruct (JS.skipSpace (String a r)) as [r'|] eqn:E.
  - apply (Hskip _ r' E). apply (IH (String.length r')); [|reflexivity].
    by apply skipSpace_shorter.
  - apply (Hbyte a r E). apply (IH (String.length r)); [simpl; lia|reflexivity].
Qed.

Lemma blank_app x y : JS.blank x = true -> JS.blank (x +:+ y) = JS.blank y.
Proof.
  induction x as [|s r E IH|a r E IH] using scan_ind; intros H.
  - reflexivity.
  - rewrite blank_skip in H. rewrite E in H.
    destruct s as [|a s]; [discriminate E|].
    rewrite blank_skip. change (String a s +:+ y) with (String a (s +:+ y)).
    change (String a (s +:+ y)) with (String a s +:+ y).
    rewrite (skipSpace_app _ _ y E).
    change (String a s +:+ y) with (String a (s +:+ y)). cbv iota.
    by apply IH.
  - rewrite blank_skip, E in H. discriminate H.
Qed.

Lemma blank_trimStart s : JS.blank (JS.trimStart s) = JS.blank s.
Proof.
  induction s as [|s r E IH|a r E IH] using scan_ind.
  - reflexivity.
  - rewrite trimStart_skip, E, IH. rewrite (blank_skip s), E.
    by destruct s.
  - by rewrite trimStart_skip, E.
Qed.

Lemma skipSpace_trimStart s : JS.skipSpace (JS.trimStart s) = None.
Proof.
  induction s as [|s r E IH|a r E IH] using scan_ind.
  - reflexivity.
  - by rewrite trimStart_skip, E.
  - by rewrite trimStart_skip, E.
Qed.

Lemma trimEnd_empty s : JS.trimEnd s = "" <-> JS.blank s = true.
Proof.
  destruct s as [|a r]; [done|]. cbn [JS.trimEnd].
  destruct (JS.blank (String a r)); split; congruence.
Qed.

Lemma trimEnd_split s : exists w, s = JS.trimEnd s +:+ w /\ JS.blank w = true.
Proof.
  induction s as [|a r (w & Hr & Hw)]; [by exists ""|]. cbn [JS.trimEnd].
  destruct (JS.blank (String a r)) eqn:E.
  - by exists (String a r).
  - exists w. split; [|exact Hw].
    change (String a (JS.trimEnd r) +:+ w) with (String a (JS.trimEnd r +:+ w)).
    by rewrite <- Hr.
Qed.

Lemma blank_trimEnd s : JS.blank (JS.trimEnd s) = JS.blank s.
Proof.
  destruct (trimEnd_split s) as (w & Hs & Hw).
  destruct (JS.blank (JS.trimEnd s)) eqn:E.
  - transitivity (JS.blank (JS.trimEnd s +:+ w)); [|by rewrite <- Hs].
    by rewrite (blank_app _ w E).
  - destruct (JS.blank s) eqn:E'; [|reflexivity].
    apply trimEnd_empty in E'. rewrite E' in E. discriminate E.
Qed.

Lemma trimEnd_trimEnd s : JS.trimEnd (JS.trimEnd s) = JS.trimEnd s.
Proof.
  induction s as [|a r IH]; [reflexivity|].
  pose proof (blank_trimEnd (String a r)) as H. revert H. cbn [JS.trimEnd].
  destruct (JS.blank (String a r)) eqn:E; [reflexivity|].
  intros H. cbn [JS.trimEnd]. by rewrite H, IH.
Qed.

Lemma trimEnd_no_tail s front tail :
  JS.trimEnd s = front +:+ tail -> JS.blank tail = true -> tail = "".
Proof.
  revert front. induction s as [|a r IH]; intros front.
  - by destruct front, tail.
  - pose proof (blank_trimEnd (String a r)) as H. revert H. cbn [JS.trimEnd].
    destruct (JS.blank (String a r)) eqn:E.
    + by destruct front, tail.
    + intros H Heq Htail. destruct front as [|f front].
      * change ("" +:+ tail) with tail in Heq. subst tail. congruence.
      * change (String f front +:+ tail) with (String f (front +:+ tail)) in Heq.
        injection Heq as _ Heq. by apply (IH front).
Qed.

Lemma skipSpace_blank w : w <> "" -> JS.blank w = true -> JS.skipSpace w <> None.
Proof.
  intros Hw H. rewrite blank_skip in H. destruct w; [done|].
  by destruct (JS.skipSpace (String a w)).
Qed.

Lemma no_head s ws rest :
  JS.skipSpace s = None -> s = ws +:+ rest -> JS.blank ws = true -> ws = "".
Proof.
  intros Hs -> Hws. destruct ws as [|a ws]; [reflexivity|].
  destruct (JS.skipSpace (String a ws)) as [r|] eqn:E.
  - by rewrite (skipSpace_app _ _ rest E) in Hs.
  - by destruct (skipSpace_blank (String a ws)).
Qed.

Lemma skipSpace_trim s : JS.skipSpace (JS.trim s) = None.
Proof.
  unfold JS.trim. pose proof (skipSpace_trimStart s) as H.
  destruct (trimEnd_split (JS.trimStart s)) as (w & Hs & _).
  destruct (JS.skipSpace (JS.trimEnd (JS.trimStart s))) as [r|] eqn:E; [|reflexivity].
  rewrite Hs, (skipSpace_app _ _ w E) in H. discriminate H.
Qed.

Lemma append_assoc (x y z : string) : (x +:+ y) +:+ z = x +:+ (y +:+ z).
Proof.
  induction x as [|a x IH]; [reflexivity|].
  change (String a x +:+ y) with (String a (x +:+ y)).
  change (String a (x +:+ y) +:+ z) with (String a ((x +:+ y) +:+ z)).
  by rewrite IH.
Qed.

Lemma trimStart_split s : exists w, s = w +:+ JS.trimStart s /\ JS.blank w = true.
Proof.
  induction s as [|s r E (w & Hr & Hw)|a r E _] using scan_ind.
  - by exists "".
  - rewrite trimStart_skip, E.
    destruct (skipSpace_split _ _ E) as (w0 & -> & Hne & Hw0).
    assert (JS.blank w0 = true) as Hb.
    { rewrite blank_skip, Hw0. by destruct w0. }
    exists (w0 +:+ w). split.
    + rewrite append_assoc. by rewrite <- Hr.
    + by rewrite (blank_app _ _ Hb).
  - rewrite trimStart_skip, E. by exists "".
Qed.

(** What [trim] returns is the string without a blank part before and a
    blank part after. *)
Lemma trim_split s :
  exists before after,
    s = before +:+ JS.trim s +:+ after /\
    JS.blank before = true /\ JS.blank after = true.
Proof.
  destruct (trimStart_split s) as (before & Hs & Hb).
  destruct (trimEnd_split (JS.trimStart s)) as (after & Ht & Ha).
  exists before, after. unfold JS.trim. by rewrite <- Ht, <- Hs.
Qed.

Lemma trim_empty s : JS.trim s = "" <-> JS.blank s = true.
Proof. unfold JS.trim. by rewrite trimEnd_empty, blank_trimStart. Qed.

Lemma trim_trim s : JS.trim (JS.trim s) = JS.trim s.
Proof.
  unfold JS.trim at 1. rewrite trimStart_skip, skipSpace_trim.
  unfold JS.trim. apply trimEnd_trimEnd.
Qed.

(** Strings without white space.  The bytes of a white-space code point
    of two or three bytes are all above 127, and [toLowerCase] moves
    bytes below 128 only. *)
Lemma spaceFree_nil : JS.spaceFree "".
Proof. intros before after H. by destruct before, after. Qed.

Lemma spaceFree_cons a r :
  JS.skipSpace (String a r) = None -> JS.spaceFree r -> JS.spaceFree (String a r).
Proof.
  intros Ha Hr before after H. destruct before as [|b before].
  - change ("" +:+ after) with after in H. by subst after.
  - change (String b before +:+ after) with (String b (before +:+ after)) in H.
    injection H as _ H. by apply (Hr before).
Qed.

Lemma spaceFree_no_blank s before ws after :
  JS.spaceFree s -> s = before +:+ ws +:+ after -> JS.blank ws = true -> ws = "".
Proof.
  intros Hs H Hws. apply (no_head (ws +:+ after) ws after); [|done|done].
  by apply (Hs before).
Qed.

Lemma space2_high a b :
  JS.space2 a b = true -> 128 <= nat_of_ascii a /\ 128 <= nat_of_ascii b.
Proof.
  unfold JS.space2. rewrite andb_true_iff, !Nat.eqb_eq. lia.
Qed.

Lemma space3_high a b c :
  JS.space3 a b c = true ->
  128 <= nat_of_ascii a /\ 128 <= nat_of_ascii b /\ 128 <= nat_of_ascii c.
Proof.
  unfold JS.space3. cbv zeta.
  rewrite !orb_true_iff, !andb_true_iff, !orb_true_iff, !andb_true_iff,
    !Nat.eqb_eq, !Nat.leb_le.
  lia.
Qed.

Lemma isSpace_low a : JS.isSpace a = true -> nat_of_ascii a < 128.
Proof.
  unfold JS.isSpace. cbv zeta.
  rewrite orb_true_iff, andb_true_iff, Nat.eqb_eq, !Nat.leb_le. lia.
Qed.

Lemma space2_low a b :
  nat_of_ascii a < 128 \/ nat_of_ascii b < 128 -> JS.space2 a b = false.
Proof.
  intros H. destruct (JS.space2 a b) eqn:E; [|reflexivity].
  apply space2_high in E. lia.
Qed.

Lemma space3_low a b c :
  nat_of_ascii a < 128 \/ nat_of_ascii b < 128 \/ nat_of_ascii c < 128 ->
  JS.space3 a b c = false.
Proof.
  intros H. destruct (JS.space3 a b c) eqn:E; [|reflexivity].
  apply space3_high in E. lia.
Qed.

Lemma skipSpace_low a r :
  nat_of_ascii a < 128 -> JS.isSpace a = false -> JS.skipSpace (String a r) = None.
Proof.
  intros Hlow Ha. cbn [JS.skipSpace]. rewrite Ha.
  destruct r as [|b [|c r]]; [reflexivity| |].
  - rewrite space2_low by auto. reflexivity.
  - rewrite space2_low, space3_low by auto. reflexivity.
Qed.

(** A byte that begins no white space still begins none when the bytes
    that followed it are replaced from some place on by a byte below
    128, or cut. *)
Lemma skipSpace_next_low a out :
  JS.isSpace a = false ->
  match out with EmptyString => True | String b _ => nat_of_ascii b < 128 end ->
  JS.skipSpace (String a out) = None.
Proof.
  intros Ha Hout. cbn [JS.skipSpace]. rewrite Ha.
  destruct out as [|b [|c r]]; [reflexivity| |].
  - rewrite space2_low by auto. reflexivity.
  - rewrite space2_low, space3_low by auto. reflexivity.
Qed.

Lemma skipSpace_third_low a b out :
  JS.isSpace a = false -> JS.space2 a b = false ->
  match out with EmptyString => True | String c _ => nat_of_ascii c < 128 end ->
  JS.skipSpace (String a (String b out)) = None.
Proof.
  intros Ha Hb Hout. cbn [JS.skipSpace]. rewrite Ha, Hb.
  destruct out as [|c r]; [reflexivity|].
  rewrite space3_low by auto. reflexivity.
Qed.

Lemma dashRuns_head inRun s :
  match JS.skipSpace s with
  | Some r => JS.dashRuns inRun s = JS.dashOr inRun (JS.dashRuns true r)
  | None =>
      match s with
      | EmptyString => JS.dashRuns inRun s = ""
      | String a r => JS.dashRuns inRun s = String a (JS.dashRuns false r)
      end
  end.
Proof.
  rewrite (dashRuns_skip inRun s). destruct (JS.skipSpace s); [reflexivity|]. by destruct s.
Qed.

Lemma skipSpace_dashRuns a r :
  JS.skipSpace (String a r) = None ->
  JS.skipSpace (String a (JS.dashRuns false r)) = None.
Proof.
  intros Hskip. pose proof (skipSpace_head a r Hskip) as Ha.
  pose proof (dashRuns_head false r) as Hr.
  destruct (JS.skipSpace r) as [r'|] eqn:Er.
  { rewrite Hr. apply skipSpace_next_low; [done|]. by apply Nat.ltb_lt. }
  destruct r as [|b r1]; [by rewrite Hr; apply skipSpace_next_low|].
  rewrite Hr.
  assert (JS.space2 a b = false) as Hb.
  { revert Hskip. cbn [JS.skipSpace]. rewrite Ha. by destruct (JS.space2 a b). }
  pose proof (dashRuns_head false r1) as Hr1.
  destruct (JS.skipSpace r1) as [r1'|] eqn:Er1.
  { rewrite Hr1. apply skipSpace_third_low; [done|done|]. by apply Nat.ltb_lt. }
  destruct r1 as [|c r2]; [by rewrite Hr1; apply skipSpace_third_low|].
  rewrite Hr1. revert Hskip. cbn [JS.skipSpace]. rewrite Ha, Hb.
  by destruct (JS.space3 a b c).
Qed.

Lemma spaceFree_dashRuns inRun s : JS.spaceFree (JS.dashRuns inRun s).
Proof.
  revert inRun. induction s as [|s r E IH|a r E IH] using scan_ind; intros inRun.
  - apply spaceFree_nil.
  - rewrite dashRuns_skip, E. destruct inRun; [apply IH|].
    apply spaceFree_cons; [|apply IH]. apply skipSpace_low; [by apply Nat.ltb_lt|reflexivity].
  - rewrite dashRuns_skip, E. apply spaceFree_cons; [|apply IH].
    by apply skipSpace_dashRuns.
Qed.

Lemma lowerChar_high a : 128 <= nat_of_ascii a -> JS.lowerChar a = a.
Proof.
  intros H. unfold JS.lowerChar. cbv zeta.
  destruct (Nat.leb_spec 65 (nat_of_ascii a)), (Nat.leb_spec (nat_of_ascii a) 90);
    simpl; try reflexivity; lia.
Qed.

Lemma lowerChar_low a : nat_of_ascii a < 128 -> nat_of_ascii (JS.lowerChar a) < 128.
Proof.
  intros H. unfold JS.lowerChar. cbv zeta.
  destruct (Nat.leb_spec 65 (nat_of_ascii a)), (Nat.leb_spec (nat_of_ascii a) 90);
    simpl; try done.
  rewrite nat_ascii_embedding; lia.
Qed.

Lemma isSpace_lowerChar a : JS.isSpace (JS.lowerChar a) = JS.isSpace a.
Proof. destruct a as [[] [] [] [] [] [] [] []]; reflexivity. Qed.

Lemma space2_lower a b : JS.space2 (JS.lowerChar a) (JS.lowerChar b) = JS.space2 a b.
Proof.
  destruct (Nat.lt_ge_cases (nat_of_ascii a) 128) as [Ha|Ha].
  { rewrite !space2_low; auto using lowerChar_low. }
  destruct (Nat.lt_ge_cases (nat_of_ascii b) 128) as [Hb|Hb].
  { rewrite !space2_low; auto using lowerChar_low. }
  by rewrite !lowerChar_high.
Qed.

Lemma space3_lower a b c :
  JS.space3 (JS.lowerChar a) (JS.lowerChar b) (JS.lowerChar c) = JS.space3 a b c.
Proof.
  destruct (Nat.lt_ge_cases (nat_of_ascii a) 128) as [Ha|Ha].
  { rewrite !space3_low; auto using lowerChar_low. }
  destruct (Nat.lt_ge_cases (nat_of_ascii b) 128) as [Hb|Hb].
  { rewrite !space3_low; auto using lowerChar_low. }
  destruct (Nat.lt_ge_cases (nat_of_ascii c) 128) as [Hc|Hc].
  { rewrite !space3_low; auto 6 using lowerChar_low. }
  by rewrite !lowerChar_high.
Qed.

Lemma skipSpace_toLowerCase s :
  JS.skipSpace (JS.toLowerCase s) = JS.toLowerCase <$> JS.skipSpace s.
Proof.
  destruct s as [|a [|b [|c r]]]; cbn [JS.toLowerCase JS.skipSpace];
    rewrite ?isSpace_lowerChar, ?space2_lower, ?space3_lower;
    repeat case_match; reflexivity.
Qed.

Lemma spaceFree_toLowerCase s : JS.spaceFree s -> JS.spaceFree (JS.toLowerCase s).
Proof.
  induction s as [|a r IH]; intros Hs; [apply spaceFree_nil|].
  change (JS.toLowerCase (String a r)) with (String (JS.lowerChar a) (JS.toLowerCase r)).
  apply spaceFree_cons.
  - change (String (JS.lowerChar a) (JS.toLowerCase r)) with (JS.toLowerCase (String a r)).
    rewrite skipSpace_toLowerCase, (Hs "" (String a r)); reflexivity.
  - apply IH. intros before after H. apply (Hs (String a before)).
    change (String a before +:+ after) with (String a (before +:+ after)). by rewrite H.
Qed.

End WhiteSpaceFacts.

Section SortFacts.
Context {A : Type} (comparefn : A -> A -> JS.number).

Lemma insert_Permutation x l : JS.insert comparefn x l ≡ₚ x :: l.
Proof.
  induction l as [|y l IH]; simpl; [reflexivity|].
  destruct (JS.gt0 (comparefn x y)); [|reflexivity].
  rewrite IH. apply Permutation_swap.
Qed.

Lemma sort_Permutation l : JS.sort comparefn l ≡ₚ l.
Proof.
  induction l as [|x l IH]; simpl; [reflexivity|].
  rewrite insert_Permutation. by f_equiv.
Qed.

(** Elements that the comparator never puts one after the other keep
    their relative order: the sort is stable. *)
Lemma filter_insert (c : A -> Prop) `{!forall x, Decision (c x)} x l :
  (forall y, y ∈ l -> c x -> c y -> JS.gt0 (comparefn x y) = false) ->
  filter c (JS.insert comparefn x l) = filter c (x :: l).
Proof.
  induction l as [|y l IH]; intros Hc; simpl; [reflexivity|].
  destruct (JS.gt0 (comparefn x y)) eqn:E; [|reflexivity].
  assert (IH' : filter c (JS.insert comparefn x l) = filter c (x :: l)).
  { apply IH. intros z Hz. apply Hc. by right. }
  rewrite (filter_cons c y), IH', !filter_cons.
  destruct (decide (c x)) as [Hx|Hx], (decide (c y)) as [Hy|Hy]; try reflexivity.
  rewrite Hc in E; [discriminate|by left|done|done].
Qed.

Lemma filter_sort (c : A -> Prop) `{!forall x, Decision (c x)} l :
  (forall x y, x ∈ l -> y ∈ l -> c x -> c y -> JS.gt0 (comparefn x y) = false) ->
  filter c (JS.sort comparefn l) = filter c l.
Proof.
  induction l as [|x l IH]; intros Hc; simpl; [reflexivity|].
  rewrite filter_insert.
  - rewrite !filter_cons, IH; [reflexivity|].
    intros a b Ha Hb. apply Hc; by right.
  - intros y Hy. rewrite sort_Permutation in Hy. apply Hc; [by left|by right].
Qed.

(** On a set where the comparator agrees with a transitive relation,
    the result is ordered by that relation. *)
Section Ordered.
Variable dom : A -> Prop.
Variable R : A -> A -> Prop.
Hypothesis R_trans : forall x y z, dom x -> dom y -> dom z -> R x y -> R y z -> R x z.
Hypothesis comparefn_R :
  forall x y, dom x -> dom y -> if JS.gt0 (comparefn x y) then R y x else R x y.

Lemma insert_StronglySorted x l :
  dom x -> Forall dom l ->
  StronglySorted R l -> StronglySorted R (JS.insert comparefn x l).
Proof.
  intros Hx. induction l as [|y l IH]; intros Hl Hs; simpl.
  - repeat constructor.
  - apply Forall_cons in Hl as [Hy Hl].
    apply StronglySorted_inv in Hs as [Hs Hyl].
    pose proof (comparefn_R x y Hx Hy) as Hxy.
    destruct (JS.gt0 (comparefn x y)).
    + constructor; [by apply IH|].
      rewrite insert_Permutation. by constructor.
    + constructor; [by constructor|].
      constructor; [done|].
      rewrite Forall_forall in Hyl, Hl |- *. intros z Hz.
      apply (R_trans x y z); auto.
Qed.

Lemma sort_StronglySorted l :
  Forall dom l -> StronglySorted R (JS.sort comparefn l).
Proof.
  induction l as [|x l IH]; intros Hl; simpl; [constructor|].
  apply Forall_cons in Hl as [Hx Hl].
  apply insert_StronglySorted; [done| |by apply IH].
  by rewrite sort_Permutation.
Qed.

End Ordered.
End SortFacts.

Lemma List_filter_filter {A} (f : A -> bool) l :
  List.filter f l = filter (fun x => f x = true) l.
Proof.
  induction l as [|x l IH]; simpl; [reflexivity|].
  rewrite filter_cons, IH.
  destruct (f x); destruct (decide _); congruence.
Qed.

Lemma List_filter_filter_ne (l : list string) :
  List.filter (fun n => JS.truthy (Some n)) l = filter (fun n => n <> "") l.
Proof.
  rewrite List_filter_filter. apply list_filter_iff.
  intros [|c n]; simpl; split; congruence.
Qed.

Lemma StronglySorted_lookup_lt {A} (R : A -> A -> Prop) l i j a b :
  StronglySorted R l -> i < j -> l !! i = Some a -> l !! j = Some b -> R a b.
Proof.
  intros Hs. revert i j. induction Hs as [|x l Hs IH Hx]; intros i j Hij Hi Hj.
  - by rewrite lookup_nil in Hi.
  - destruct j as [|j]; [lia|]. destruct i as [|i]; simpl in *.
    + injection Hi as ->. rewrite Forall_forall in Hx. apply Hx.
      apply list_elem_of_lookup. eauto.
    + apply (IH i j); [lia|done|done].
Qed.

(* ================================================================= *)
(** ** Hub view: the task list *)

Module AppFacts.
Import App.

Lemma number_le_trans a b c : JS.le a b -> JS.le b c -> JS.le a c.
Proof. destruct a, b, c; simpl; try tauto; lia. Qed.

Lemma gt0_sub_le a b :
  a <> JS.NaN -> b <> JS.NaN ->
  if JS.gt0 (JS.sub a b) then JS.le b a else JS.le a b.
Proof.
  intros Ha Hb. destruct a, b; simpl; try congruence; try exact I.
  destruct (Z.ltb_spec 0 (z - z0)); simpl; lia.
Qed.

Lemma gt0_sub_diag v : JS.gt0 (JS.sub v v) = false.
Proof. destruct v; simpl; try reflexivity. apply Z.ltb_ge. lia. Qed.

Lemma matchesFilter_Matches activeFilter t :
  matchesFilter activeFilter t = true <-> Matches activeFilter t.
Proof.
  unfold matchesFilter, Matches.
  rewrite orb_true_iff, !String.eqb_eq. reflexivity.
Qed.

Section TaskListFacts.
Variable Date_getTime : string -> option Z.

Lemma dueDateParses_NaN t : dueDateParses Date_getTime t <-> dueTime Date_getTime t <> JS.NaN.
Proof.
  unfold dueDateParses, dueTime.
  destruct (task_dueDate t) as [[|c d]|]; simpl.
  - split; [done|]. by intros _ d [= <-].
  - split.
    + intros H. destruct (H (String c d) eq_refl) as [ms ->]; done.
    + intros H d' [= <-] _. destruct (Date_getTime _); [eauto|done].
  - split; [done|]. by intros _ d.
Qed.

Lemma dueTime_dueMoment t : dueTime Date_getTime t = dueMoment Date_getTime t.
Proof. unfold dueTime, dueMoment. by destruct (task_dueDate t) as [[|c d]|]. Qed.

Lemma dueTime_dated t :
  hasDueDate t = true -> dueDateParses Date_getTime t ->
  exists ms, dueTime Date_getTime t = JS.Fin ms.
Proof.
  intros Hdate Hparse%dueDateParses_NaN. revert Hparse.
  unfold hasDueDate in Hdate. unfold dueTime. rewrite Hdate.
  destruct (Date_getTime _); [eauto|congruence].
Qed.

Lemma dueTime_undated t :
  hasDueDate t = false -> dueTime Date_getTime t = JS.PosInf.
Proof. unfold hasDueDate, dueTime. by intros ->. Qed.

Lemma filter_matchesFilter activeFilter tasks :
  List.filter (matchesFilter activeFilter) tasks = filter (Matches activeFilter) tasks.
Proof.
  rewrite List_filter_filter. apply list_filter_iff.
  intros t. apply matchesFilter_Matches.
Qed.

(** C1, as amended: for every filter and every task list in which each
    task matching the filter has no due date, or a due date that the host
    reads, once "T00:00:00" is appended to it, as a point in time, the
    rendered list holds exactly the tasks matching the filter (every task
    for ["all"], else the tasks whose assignee is the filter), in
    ascending order of due date, undated tasks after all dated ones, and
    tasks with the same due date in their order of insertion. *)
Theorem renderedTasks_listed activeFilter tasks :
  Forall (dueDateParses Date_getTime) (filter (Matches activeFilter) tasks) ->
  ListedByDueDate Date_getTime activeFilter tasks
    (renderedTasks Date_getTime activeFilter tasks).
Proof.
  intros Hm. unfold renderedTasks. rewrite filter_matchesFilter.
  set (matching := filter (Matches activeFilter) tasks) in *.
  assert (Hsorted : StronglySorted
            (fun a b => JS.le (dueTime Date_getTime a) (dueTime Date_getTime b))
            (JS.sort (compareDue Date_getTime) matching)).
  { apply (sort_StronglySorted _ (dueDateParses Date_getTime)); [| |exact Hm].
    - intros x y z _ _ _. apply number_le_trans.
    - intros x y Hx%dueDateParses_NaN Hy%dueDateParses_NaN. by apply gt0_sub_le. }
  split.
  - apply sort_Permutation.
  - intros i j a b Hij Hi Hj. rewrite <- !dueTime_dueMoment.
    exact (StronglySorted_lookup_lt _ _ _ _ _ _ Hsorted Hij Hi Hj).
  - intros i j a b Hi Hj Ha Hb.
    assert (Ha' : dueDateParses Date_getTime a).
    { rewrite Forall_forall in Hm. apply Hm.
      rewrite <- (sort_Permutation (compareDue Date_getTime)).
      apply list_elem_of_lookup. eauto. }
    destruct (dueTime_dated a Ha Ha') as [ms Hms].
    pose proof (dueTime_undated b Hb) as Hinf.
    destruct (Nat.lt_trichotomy i j) as [Hlt|[->|Hgt]]; [done| |].
    + congruence.
    + pose proof (StronglySorted_lookup_lt _ _ _ _ _ _ Hsorted Hgt Hj Hi) as Hle.
      cbv beta in Hle. rewrite Hms, Hinf in Hle. destruct Hle.
  - intros v. apply filter_sort.
    intros x y _ _ Hx Hy. cbv beta in Hx, Hy. unfold compareDue.
    rewrite !dueTime_dueMoment, Hx, Hy. apply gt0_sub_diag.
Qed.

End TaskListFacts.

Ltac due_date_parses :=
  let d := fresh "d" in let Hd := fresh "Hd" in
  intros d Hd _;
  first [discriminate Hd | injection Hd as <-; eexists; vm_compute; reflexivity].

(** The hypothesis of C1 holds, on the sample host, of the seeded list
    followed by a task whose due date is no date, under the filter of an
    assignee who is not the one of that task. *)
Lemma renderedTasks_listed_witness :
  Forall (dueDateParses UtcHost.getTime)
    (filter (Matches "Taylor Trash") (initialTasks ++ [misdatedTask])) /\
  ~ dueDateParses UtcHost.getTime misdatedTask /\
  ListedByDueDate UtcHost.getTime "Taylor Trash" (initialTasks ++ [misdatedTask])
    (renderedTasks UtcHost.getTime "Taylor Trash" (initialTasks ++ [misdatedTask])).
Proof.
  assert (H : Forall (dueDateParses UtcHost.getTime)
                (filter (Matches "Taylor Trash") (initialTasks ++ [misdatedTask]))).
  { vm_compute filter. repeat (constructor; [due_date_parses|]). constructor. }
  split; [exact H|]. split.
  - intros Hparse%dueDateParses_NaN. by apply Hparse.
  - exact (renderedTasks_listed UtcHost.getTime "Taylor Trash"
             (initialTasks ++ [misdatedTask]) H).
Defined.

(** C1 as stated fails: a due date the host cannot read compares as NaN
    with everything, so the task carrying it stays where it was, here
    after a task that has no due date.  On this list the comparator
    answers NaN, which [sort] reads as a tie, to every question: any
    stable sort returns the list as it is. *)
Lemma renderedTasks_misdated_not_listed :
  ~ ListedByDueDate UtcHost.getTime "all" [undatedTask; misdatedTask]
      (renderedTasks UtcHost.getTime "all" [undatedTask; misdatedTask]).
Proof.
  intros H.
  pose proof (listed_undated_last _ _ _ _ H 1 0 misdatedTask undatedTask
                eq_refl eq_refl eq_refl eq_refl) as Hlt.
  lia.
Qed.

Example renderedTasks_misdated :
  renderedTasks UtcHost.getTime "all" [undatedTask; misdatedTask]
  = [undatedTask; misdatedTask].
Proof. reflexivity. Qed.

Example renderedTasks_initial_jess :
  map task_name (renderedTasks UtcHost.getTime "jess@trashtv.productions" initialTasks)
  = ["Chai x Pasty 'Hot Ones'"; "Pasty Dragumentary"; "Sweet Tea x Jan podcast content";
     "Sweet Tea x Michael Marouli YT content"; "Sweet Tea x Lawrence Chaney YT content"].
Proof. vm_compute. reflexivity. Qed.

(* ================================================================= *)
(** ** Hub view: the identity flow *)

Lemma errorType_CarriesType e c type :
  errorType e = String c type <-> CarriesType e (String c type).
Proof.
  destruct e as [text|[[[|a t]|] err message]|]; simpl; unfold JS.orOpt; simpl.
  - done.
  - destruct err as [[|b u]|]; simpl; split.
    + done.
    + intros [H|[_ H]]; congruence.
    + intros ->. right. split; [by right|done].
    + intros [H|[_ H]]; congruence.
    + done.
    + intros [H|[_ H]]; congruence.
  - split; [intros [= -> ->]; by left|]. intros [[= -> ->]|[[H|H] _]]; congruence.
  - destruct err as [[|b u]|]; simpl; split.
    + done.
    + intros [H|[_ H]]; congruence.
    + intros ->. right. split; [by left|done].
    + intros [H|[_ H]]; congruence.
    + done.
    + intros [H|[_ H]]; congruence.
  - split; [done|tauto].
Qed.

Lemma errorMessageText_CarriesText e phrase :
  phrase <> "" ->
  JS.includes phrase (errorMessageText e) = true <->
  exists text before after,
    CarriesText e text /\ JS.toLowerCase text = before +:+ phrase +:+ after.
Proof.
  intros Hphrase. split.
  - intros (before & after & H)%includes_split.
    destruct e as [text|[type err [message|]]|]; unfold errorMessageText in H; simpl in H.
    + by exists text, before, after.
    + exists message, before, after. split; [done|]. by destruct message.
    + destruct phrase; [done|]. by destruct before.
    + destruct phrase; [done|]. by destruct before.
  - intros (text & before & after & Htext & H).
    destruct e as [s|[type err message]|]; simpl in Htext; [subst s|subst message|done].
    + unfold errorMessageText. rewrite H. apply includes_append.
    + unfold errorMessageText. cbn [eo_message].
      replace (JS.orElse (Some text) "") with text by (by destruct text).
      rewrite H. apply includes_append.
Qed.

Lemma popupClosed_Cancelled e : popupClosed e = true <-> Cancelled e.
Proof.
  unfold popupClosed, Cancelled, closedPhrases.
  rewrite !orb_true_iff, !String.eqb_eq, !errorType_CarriesType.
  rewrite !errorMessageText_CarriesText by done. split.
  - intros [[[[H|H]|H]|H]|H]; [by left|right; by left|right; right..];
      destruct H as (text & before & after & Htext & H);
      eexists _, text, before, after; (split; [|done]);
      rewrite !elem_of_cons; tauto.
  - intros [H|[H|(phrase & text & before & after & Hin & Htext & H)]]; [tauto|tauto|].
    rewrite !elem_of_cons, elem_of_nil in Hin.
    destruct Hin as [->|[->|[->|[]]]]; [left; left; right|left; right|right];
      by exists text, before, after.
Qed.

(** C8: an error signalling that the popup was closed (by the type it
    carries, or by a phrase of its text) clears the error state; every
    other error sets the troubleshooting display, which prints the type
    and the message of the error, or "No type" and "No message" where
    it has none, and the origin to authorize.  Either way the screen and
    the sign-in button stay as they were. *)
Theorem error_callback_display (origin : string) (e : IdentityError) (s : State) :
  let s' := error_callback origin e s in
  (popupClosed e = true <-> Cancelled e) /\
  (Cancelled e -> error s' = None) /\
  (~ Cancelled e ->
     error s'
     = Some match e with
            | ErrObject o =>
                Troubleshooting
                  match eo_type o with Some (String c type) => String c type | _ => "No type" end
                  match eo_message o with
                  | Some (String c message) => String c message
                  | _ => "No message"
                  end
                  origin
            | _ => Troubleshooting "No type" "No message" origin
            end) /\
  screen s' = screen s /\
  signInEnabled s' = signInEnabled s.
Proof.
  cbv zeta. pose proof (popupClosed_Cancelled e) as Hclosed.
  split; [exact Hclosed|].
  unfold error_callback. destruct (popupClosed e).
  - split; [done|]. split; [|done]. intros H. destruct H. by apply Hclosed.
  - split; [|split; [|done]].
    + intros H%Hclosed. discriminate H.
    + intros _. by destruct e as [text|o|].
Qed.

Lemma error_callback_display_witness :
  let closed := ErrString "Popup window closed" in
  let denied := ErrObject {| eo_type := None; eo_error := Some "access_denied";
                             eo_message := None |} in
  let failed := setError (Some (Message "Authentication failed. Please try again."))
                  initialState in
  (Cancelled closed /\ error (error_callback "https://hub.example" closed failed) = None) /\
  (~ Cancelled denied /\
   error (error_callback "https://hub.example" denied failed)
   = Some (Troubleshooting "No type" "No message" "https://hub.example")).
Proof.
  cbv zeta.
  assert (Cancelled (ErrString "Popup window closed")) as Hclosed.
  { right. right. exists "popup window closed", "Popup window closed", "", "".
    split; [by apply list_elem_of_here|]. by split. }
  assert (~ Cancelled (ErrObject {| eo_type := None; eo_error := Some "access_denied";
                                    eo_message := None |})) as Hdenied.
  { intros H%popupClosed_Cancelled. discriminate H. }
  split; (split; [done|]).
  - exact (proj1 (proj2 (error_callback_display "https://hub.example" _ _)) Hclosed).
  - exact (proj1 (proj2 (proj2 (error_callback_display "https://hub.example" _ _))) Hdenied).
Defined.

Example popup_closed_clears_error :
  error (error_callback "https://hub.example"
           (ErrObject {| eo_type := Some "popup_closed"; eo_error := None;
                         eo_message := Some "Popup window closed" |})
           (setError (Some (Message "Authentication failed. Please try again.")) initialState))
  = None.
Proof. reflexivity. Qed.

Example access_denied_is_displayed :
  error (error_callback "https://hub.example"
           (ErrObject {| eo_type := Some "access_denied"; eo_error := None;
                         eo_message := Some "The user denied access" |})
           initialState)
  = Some (Troubleshooting "access_denied" "The user denied access" "https://hub.example").
Proof. reflexivity. Qed.

(* ================================================================= *)
(** ** Hub view: single-task extraction *)

(** What the guard of [handleAddTask] lets through. *)
Lemma handleAddTask_outcome (d : TaskData) (s : State) :
  JS.blank (newTaskInput s) = false -> isLoading s = false ->
  let s' := handleAddTask (Extracted d) s in
  if JS.truthy (td_name d) && JS.truthy (td_assignee d) && JS.truthy (td_dueDate d)
  then tasks s' = tasks s ++ [newTask d] /\ error s' = None
  else tasks s' = tasks s /\ error s' = Some (Message sorryMessage).
Proof.
  intros Hinput Hidle. cbv zeta. unfold handleAddTask. rewrite Hinput, Hidle. simpl.
  by destruct (JS.truthy (td_name d) && JS.truthy (td_assignee d) && JS.truthy (td_dueDate d)).
Qed.

Lemma handleAddTask_failed (s : State) :
  JS.blank (newTaskInput s) = false -> isLoading s = false ->
  let s' := handleAddTask ExtractFailed s in
  tasks s' = tasks s /\ error s' = Some (Message sorryMessage).
Proof.
  intros Hinput Hidle. cbv zeta. unfold handleAddTask. by rewrite Hinput, Hidle.
Qed.

(** C5 on the code: the schema lists [priority] as required, but a
    reply without it passes the guard; the task is added with no
    priority and no error is shown. *)
Theorem task_without_priority_is_added :
  let s' := handleAddTask (Extracted noPriorityData) requestTyped in
  "priority" ∈ schemaRequired /\
  td_priority noPriorityData = None /\
  tasks s' = tasks requestTyped ++ [newTask noPriorityData] /\
  task_priority (newTask noPriorityData) = None /\
  error s' = None.
Proof. cbv zeta. repeat split. set_solver. Qed.

End AppFacts.


(* ================================================================= *)
(** ** Project detail view: reading the sheet *)

Module ProjectDetailFacts.
Import ProjectDetail.

Lemma truthy_Some_ne n : JS.truthy (Some n) = true <-> n <> "".
Proof. destruct n; simpl; split; congruence. Qed.

Lemma sub_name_rowToSubTask i row : sub_name (rowToSubTask i row) = firstCell row.
Proof. reflexivity. Qed.

Lemma elem_of_tasksWithIds values st :
  st ∈ tasksWithIds values <->
  sub_name st <> "" /\ exists i row, values !! i = Some row /\ st = rowToSubTask i row.
Proof.
  unfold tasksWithIds. rewrite List_filter_filter, list_elem_of_filter.
  rewrite truthy_Some_ne, list_elem_of_lookup.
  setoid_rewrite list_lookup_imap. setoid_rewrite fmap_Some.
  naive_solver.
Qed.

Lemma names_tasksWithIds values :
  sub_name <$> tasksWithIds values = filter (fun n => n <> "") (firstCell <$> values).
Proof.
  unfold tasksWithIds.
  assert (Hnames : sub_name <$> imap rowToSubTask values = firstCell <$> values).
  { rewrite fmap_imap. rewrite <- imap_const. by apply imap_ext. }
  rewrite <- Hnames, <- List_filter_filter_ne.
  symmetry. apply List.filter_map_swap.
Qed.

Section Fetch.
Variable task : Task.
Variable spreadsheetId : string.

Lemma fetch_resolved s values :
  view (run (fetchSheetData task spreadsheetId (GetOk values)) s)
  = setIsLoading false (setSubTasks (tasksWithIds (default [] values))
      (setError None (setIsLoading true s))).
Proof. reflexivity. Qed.

Lemma visible_after_fetch s values :
  visibleSubTasks (view (run (fetchSheetData task spreadsheetId (GetOk values)) s))
  = tasksWithIds (default [] values).
Proof. reflexivity. Qed.

(** C6: after a successful fetch the table shows a row exactly when
    its name cell is non-empty; every sub-task shown comes from a fetched
    row, and the names shown are the non-empty name cells, in sheet
    order.  ([values] is missing when the range is empty, and then stands
    for no rows.) *)
Theorem fetched_rows_shown (s : State) (values : option (list Row)) :
  let rows := default [] values in
  let shown :=
    visibleSubTasks (view (run (fetchSheetData task spreadsheetId (GetOk values)) s)) in
  (forall i row, rows !! i = Some row ->
     (rowToSubTask i row ∈ shown <-> firstCell row <> "")) /\
  (forall st, st ∈ shown -> exists i row, rows !! i = Some row /\ st = rowToSubTask i row) /\
  sub_name <$> shown = filter (fun n => n <> "") (firstCell <$> rows).
Proof.
  cbv zeta. rewrite visible_after_fetch.
  split; [|split].
  - intros i row Hrow. rewrite elem_of_tasksWithIds, sub_name_rowToSubTask.
    split; [tauto|]. intros Hname. split; [exact Hname|]. by exists i, row.
  - intros st Hst. apply elem_of_tasksWithIds in Hst. tauto.
  - apply names_tasksWithIds.
Qed.

Example fetched_sample_rows :
  visibleSubTasks
    (view (run (fetchSheetData task spreadsheetId (GetOk (Some sampleRows))) initialState))
  = [{| sub_id := 3; sub_status := "Done"; sub_name := "Buy props";
        sub_assignee := "A"; sub_dueDate := "" |}].
Proof. reflexivity. Qed.

(** C10: the rows are read from row 2 of the task's tab on, and the
    id of a fetched sub-task is 2 plus the index of its row among all
    fetched rows; a row with a name keeps that id whatever rows were left
    out before it; an id belongs to one sub-task; and the single-cell
    writes of a sub-task address the row of that id. *)
Theorem subTask_id_addresses_row (s : State) (values : option (list Row)) :
  let rows := default [] values in
  let fetched :=
    subTasks (view (run (fetchSheetData task spreadsheetId (GetOk values)) s)) in
  trace (run (fetchSheetData task spreadsheetId (GetOk values)) s)
    = [SheetsGet spreadsheetId ("'" +:+ task_name task +:+ "'!A2:F100")] /\
  (forall st, st ∈ fetched ->
     exists i row, rows !! i = Some row /\ sub_id st = 2 + i /\ st = rowToSubTask i row) /\
  (forall i row, rows !! i = Some row -> firstCell row <> "" ->
     exists st, st ∈ fetched /\ sub_id st = 2 + i /\ sub_name st = firstCell row) /\
  (forall a b, a ∈ fetched -> b ∈ fetched -> sub_id a = sub_id b -> a = b) /\
  (forall s' st isChecked reply,
     updateCalls (trace (run (handleStatusChange task spreadsheetId s' st isChecked reply) s'))
     = [("'" +:+ task_name task +:+ "'!C" +:+ pretty (sub_id st),
         [[if isChecked then "Done" else "In Progress"]])]) /\
  (forall s' st newName reply,
     updateCalls (trace (run (handleNameChange task spreadsheetId s' st newName reply) s'))
     = [("'" +:+ task_name task +:+ "'!A" +:+ pretty (sub_id st), [[newName]])]).
Proof.
  cbv zeta. rewrite fetch_resolved. simpl subTasks.
  repeat split.
  - intros st Hst. apply elem_of_tasksWithIds in Hst as (_ & i & row & Hrow & ->).
    exists i, row. repeat split; [done|]. simpl. lia.
  - intros i row Hrow Hname. exists (rowToSubTask i row).
    rewrite elem_of_tasksWithIds. repeat split; [done|eauto|simpl; lia].
  - intros a b Ha Hb Hid.
    apply elem_of_tasksWithIds in Ha as (_ & i & row & Hrow & ->).
    apply elem_of_tasksWithIds in Hb as (_ & j & row' & Hrow' & ->).
    simpl in Hid. assert (i = j) as <- by lia. congruence.
  - intros s' st isChecked reply. by destruct reply.
  - intros s' st newName reply. by destruct reply.
Qed.


Lemma tabNotFound_MessageMissing err : tabNotFound err = None <-> MessageMissing err.
Proof.
  unfold tabNotFound, MessageMissing. destruct err as [[code message]|]; simpl.
  - destruct code as [code|]; [destruct (Z.eqb_spec code 400) as [->|Hcode]|].
    + split; [done|]. by intros (e & [= <-] & H & _).
    + destruct message as [message|].
      * split; [done|]. by intros (e & [= <-] & _ & H).
      * split; [|done]. intros _. eexists. split; [done|]. split; [|done].
        simpl. congruence.
    + destruct message as [message|].
      * split; [done|]. by intros (e & [= <-] & _ & H).
      * split; [|done]. intros _. eexists. by split.
  - split; [done|]. by intros (e & ? & _).
Qed.

Lemma fetchThrows_MessageMissing reply :
  fetchThrows reply = true <-> exists err, reply = GetFailed err /\ MessageMissing err.
Proof.
  destruct reply as [values|err]; simpl.
  - split; [done|]. by intros (err & ? & _).
  - pose proof (tabNotFound_MessageMissing err) as H.
    destruct (tabNotFound err).
    + split; [done|]. intros (err' & [= <-] & Hm). by apply H in Hm.
    + split; [|done]. intros _. exists err. split; [done|]. by apply H.
Qed.


Example fetch_failure_missing_tab :
  error (view (run (fetchSheetData sampleTask spreadsheetId
                      (GetFailed (Some {| err_code := Some 400%Z;
                                          err_message := Some "Bad Request" |})))
                   initialState))
  = Some ("Could not find a sheet named " +:+ dquote +:+ "Pasty Dragumentary" +:+ dquote +:+
          ". Make sure a tab in your Google Sheet exactly matches the project name.").
Proof. reflexivity. Qed.

End Fetch.



(* ================================================================= *)
(** ** Project detail view: editing rows *)

Section Edit.
Variable task : Task.
Variable spreadsheetId : string.

Lemma view_handleStatusChange s st isChecked reply :
  view (run (handleStatusChange task spreadsheetId s st isChecked reply) s)
  = setSubTasks
      (withStatus (if isChecked then "Done" else "In Progress") (sub_id st) <$> subTasks s) s.
Proof. by destruct reply. Qed.

Lemma view_handleNameChange s st newName reply :
  view (run (handleNameChange task spreadsheetId s st newName reply) s)
  = setSubTasks (withName newName (sub_id st) <$> subTasks s) s.
Proof. by destruct reply. Qed.

(** C9: a status toggle or a name edit rewrites the local list at
    once: the rows with the id of the edited row take the new status, or
    the new name, and keep their other fields; the other rows and the rest
    of the state are kept.  It issues one write of one cell.  The state
    reached is the same whether the write is accepted or rejected: a
    rejection adds an alert to the trace, and nothing else. *)
Theorem row_edit_is_not_rolled_back (s : State) (st : SubTask) (isChecked : bool)
    (newName : string) (reply : Reply) :
  let newStatus := if isChecked then "Done" else "In Progress" in
  let toggled := run (handleStatusChange task spreadsheetId s st isChecked reply) s in
  let renamed := run (handleNameChange task spreadsheetId s st newName reply) s in
  let reported :=
    match reply with
    | Resolved => []
    | Rejected => [Alert "Failed to save changes. Please try again."]
    end in
  subTasks (view toggled)
    = (fun row =>
         if sub_id row =? sub_id st
         then {| sub_id := sub_id row; sub_status := newStatus; sub_name := sub_name row;
                 sub_assignee := sub_assignee row; sub_dueDate := sub_dueDate row |}
         else row) <$> subTasks s /\
  subTasks (view renamed)
    = (fun row =>
         if sub_id row =? sub_id st
         then {| sub_id := sub_id row; sub_status := sub_status row; sub_name := newName;
                 sub_assignee := sub_assignee row; sub_dueDate := sub_dueDate row |}
         else row) <$> subTasks s /\
  SameButSubTasks s (view toggled) /\
  SameButSubTasks s (view renamed) /\
  view toggled = view (run (handleStatusChange task spreadsheetId s st isChecked Resolved) s) /\
  view renamed = view (run (handleNameChange task spreadsheetId s st newName Resolved) s) /\
  trace toggled
    = SheetsUpdate spreadsheetId ("'" +:+ task_name task +:+ "'!C" +:+ pretty (sub_id st))
        [[newStatus]] :: reported /\
  trace renamed
    = SheetsUpdate spreadsheetId ("'" +:+ task_name task +:+ "'!A" +:+ pretty (sub_id st))
        [[newName]] :: reported.
Proof. cbv zeta. unfold SameButSubTasks. destruct reply; by repeat split. Qed.

Lemma statusAt_click s i st reply :
  subTasks s !! i = Some st ->
  let s1 := view (run (clickRow task spreadsheetId s i reply) s) in
  subTasks s1 !! i
  = Some {| sub_id := sub_id st;
            sub_status := if String.eqb (sub_status st) "Done" then "In Progress" else "Done";
            sub_name := sub_name st; sub_assignee := sub_assignee st;
            sub_dueDate := sub_dueDate st |}.
Proof.
  intros Hi. cbv zeta. unfold clickRow. rewrite Hi. unfold clickStatus.
  rewrite view_handleStatusChange. simpl subTasks.
  rewrite list_lookup_fmap, Hi. simpl. unfold withStatus, rowChecked.
  rewrite Nat.eqb_refl. by destruct (String.eqb (sub_status st) "Done").
Qed.

(** C2, as amended: a click on the checkbox of a row sets its status
    to "Done", or to "In Progress" if it was "Done".  After two clicks the
    status is "Done" if it was "Done" at the start and "In Progress"
    otherwise.  So two clicks bring the status back exactly when it was
    "Done" or "In Progress"; from any other status, "Todo" included, they
    end in "In Progress". *)
Theorem two_clicks_status s i st r1 r2 :
  subTasks s !! i = Some st ->
  let s1 := view (run (clickRow task spreadsheetId s i r1) s) in
  let s2 := view (run (clickRow task spreadsheetId s1 i r2) s1) in
  statusAt s1 i = Some (if String.eqb (sub_status st) "Done" then "In Progress" else "Done") /\
  statusAt s2 i = Some (if String.eqb (sub_status st) "Done" then "Done" else "In Progress") /\
  (RestoredAfterTwoClicks task spreadsheetId s i r1 r2 <->
     sub_status st = "Done" \/ sub_status st = "In Progress").
Proof.
  intros Hi. cbv zeta.
  pose proof (statusAt_click s i st r1 Hi) as H1. cbv zeta in H1.
  pose proof (statusAt_click _ i _ r2 H1) as H2. cbv zeta in H2. simpl in H2.
  unfold RestoredAfterTwoClicks, statusAt. rewrite H1, H2, Hi. simpl.
  destruct (String.eqb_spec (sub_status st) "Done") as [->|Hne]; simpl.
  - repeat split; auto.
  - repeat split.
    + intros [= H]. by right.
    + intros [H|H]; congruence.
Qed.

End Edit.

(** The hypothesis of C2 holds of the row fetched from the sample
    sheet, whose status is "Done". *)
Lemma two_clicks_status_witness :
  let s := setSubTasks (tasksWithIds sampleRows) initialState in
  let s1 := view (run (clickRow sampleTask "sheet-1" s 0 Resolved) s) in
  let s2 := view (run (clickRow sampleTask "sheet-1" s1 0 Rejected) s1) in
  subTasks s !! 0 = Some (rowToSubTask 1 ["Buy props"; "A"; "Done"]) /\
  statusAt s1 0 = Some "In Progress" /\
  statusAt s2 0 = Some "Done" /\
  (RestoredAfterTwoClicks sampleTask "sheet-1" s 0 Resolved Rejected <->
     "Done" = "Done" \/ "Done" = "In Progress").
Proof.
  cbv zeta. split; [reflexivity|].
  exact (two_clicks_status sampleTask "sheet-1"
           (setSubTasks (tasksWithIds sampleRows) initialState) 0
           (rowToSubTask 1 ["Buy props"; "A"; "Done"]) Resolved Rejected eq_refl).
Defined.

(** C2 as stated fails on a row whose status is "Todo": two clicks
    leave it "In Progress". *)
Lemma two_clicks_from_todo :
  ~ RestoredAfterTwoClicks sampleTask "sheet-1"
      (setSubTasks [todoSubTask] initialState) 0 Resolved Resolved.
Proof. unfold RestoredAfterTwoClicks. simpl. discriminate. Qed.

(* ================================================================= *)
(** ** Project detail view: committing suggestions *)

Section Commit.
Variable task : Task.
Variable spreadsheetId : string.

Lemma tasksToAdd_filter (s : State) :
  List.filter (fun t => bool_decide (sug_id t ∈ selectedSubTasks s)) (suggestedSubTasks s)
  = filter (fun t => sug_id t ∈ selectedSubTasks s) (suggestedSubTasks s).
Proof.
  rewrite List_filter_filter. apply list_filter_iff.
  intros t. apply bool_decide_eq_true.
Qed.

Lemma appendCalls_fetch w reply :
  appendCalls (trace (fetchSheetData task spreadsheetId reply w)) = appendCalls (trace w).
Proof.
  unfold fetchSheetData, appendCalls, seq, update, call. simpl.
  destruct reply as [values|err]; [|destruct (tabNotFound err) as [[]|]]; simpl;
    rewrite omap_app; simpl; apply app_nil_r.
Qed.



Lemma commit_appendCalls (s : State) (appendReply : Reply) (getReply : GetReply) :
  let selected := filter (fun t => sug_id t ∈ selectedSubTasks s) (suggestedSubTasks s) in
  selected <> [] ->
  appendCalls (trace (run (handleAddSelectedSubTasks task spreadsheetId s appendReply getReply) s))
  = [suggestionRow <$> selected].
Proof.
  cbv zeta. unfold handleAddSelectedSubTasks. rewrite tasksToAdd_filter.
  set (selected := filter _ (suggestedSubTasks s)). clearbody selected.
  intros Hne. destruct selected as [|t selected]; [done|]. cbn [length Nat.eqb].
  destruct appendReply; [destruct (fetchThrows getReply)|];
    unfold run, seq, update, call, skip; cbn -[fetchSheetData].
  - rewrite omap_app, appendCalls_fetch. reflexivity.
  - rewrite appendCalls_fetch. reflexivity.
  - reflexivity.
Qed.


(** Whatever else is selected, a selected suggestion without a name
    puts a row with an empty name cell in the payload. *)
Lemma nameless_row_in_payload (s : State) (t : Suggestion)
    (appendReply : Reply) (getReply : GetReply) :
  t ∈ suggestedSubTasks s -> sug_id t ∈ selectedSubTasks s ->
  JS.truthy (sug_name t) = false ->
  exists rows row,
    appendCalls
      (trace (run (handleAddSelectedSubTasks task spreadsheetId s appendReply getReply) s))
    = [rows] /\ row ∈ rows /\ row !! 0 = Some "".
Proof.
  intros Ht Hsel Hname.
  assert (Hin : t ∈ filter (fun t => sug_id t ∈ selectedSubTasks s) (suggestedSubTasks s)).
  { by apply list_elem_of_filter. }
  eexists _, (suggestionRow t). split; [|split].
  - apply commit_appendCalls. intros Hnil. rewrite Hnil in Hin. by apply elem_of_nil in Hin.
  - by apply list_elem_of_fmap_2.
  - unfold suggestionRow. simpl. by destruct (sug_name t) as [[|c n]|].
Qed.

(** In such a state, [N] is the size of the selection, the number the
    commit button displays. *)
Lemma selected_count (s : State) :
  SelectionOfSuggestions s ->
  length (filter (fun t => sug_id t ∈ selectedSubTasks s) (suggestedSubTasks s))
  = size (selectedSubTasks s).
Proof.
  intros [Hnodup Hsub].
  set (selected := filter _ _).
  assert (Hids : NoDup (sug_id <$> selected)).
  { eapply sublist_NoDup; [exact Hnodup|]. apply fmap_sublist, sublist_filter. }
  rewrite <- (length_fmap sug_id), <- (size_list_to_set (C := gset string)) by exact Hids.
  f_equal. apply set_eq. intros x. rewrite elem_of_list_to_set, list_elem_of_fmap.
  split.
  - intros (t & -> & Ht). by apply list_elem_of_filter in Ht as [? _].
  - intros Hx. pose proof (Hsub x Hx) as Hin.
    rewrite elem_of_list_to_set, list_elem_of_fmap in Hin.
    destruct Hin as (t & -> & Ht). exists t. split; [done|].
    by apply list_elem_of_filter.
Qed.

Lemma generated_ids (generatedTasks : list GeneratedTask) :
  sug_id <$> imap tagSuggestion generatedTasks
  = imap (fun index _ => "gen-" +:+ pretty index) generatedTasks.
Proof. rewrite fmap_imap. by apply imap_ext. Qed.

Lemma generated_ids_NoDup (generatedTasks : list GeneratedTask) :
  NoDup (imap (fun index (_ : GeneratedTask) => "gen-" +:+ pretty index) generatedTasks).
Proof.
  apply NoDup_alt. intros i j x Hi Hj.
  rewrite list_lookup_imap in Hi, Hj.
  destruct (generatedTasks !! i); [|discriminate].
  destruct (generatedTasks !! j); [|discriminate].
  simpl in Hi, Hj. rewrite <- Hj in Hi. injection Hi as Hi.
  exact (pretty_nat_inj i j Hi).
Qed.

(** Generation selects every suggestion it produces... *)
Lemma generate_selects_all (s : State) (generatedTasks : list GeneratedTask) :
  JS.blank (aiGoalInput s) = false -> isGenerating s = false ->
  let s' := view (run (handleGenerateSubTasks task s (Generated generatedTasks)) s) in
  suggestedSubTasks s' = imap tagSuggestion generatedTasks /\
  selectedSubTasks s' = list_to_set (sug_id <$> suggestedSubTasks s') /\
  SelectionOfSuggestions s'.
Proof.
  intros Hgoal Hidle. cbv zeta. unfold handleGenerateSubTasks, SelectionOfSuggestions.
  rewrite Hgoal, Hidle. simpl. rewrite generated_ids.
  repeat split; [apply generated_ids_NoDup|done].
Qed.

(** ...and ticking or unticking a listed suggestion keeps the selection
    within the list. *)
Lemma toggle_keeps_selection (s : State) (t : Suggestion) :
  SelectionOfSuggestions s -> t ∈ suggestedSubTasks s ->
  SelectionOfSuggestions (view (run (handleToggleSuggestedTask s (sug_id t)) s)).
Proof.
  intros [Hnodup Hsub] Ht. unfold SelectionOfSuggestions, handleToggleSuggestedTask.
  simpl. split; [done|].
  assert (sug_id t ∈@{gset string} list_to_set (sug_id <$> suggestedSubTasks s)).
  { rewrite elem_of_list_to_set, list_elem_of_fmap. eauto. }
  destruct (decide (sug_id t ∈ selectedSubTasks s)); intros x Hx.
  - apply elem_of_difference in Hx as [Hx _]. by apply Hsub.
  - apply elem_of_union in Hx as [Hx|Hx]; [by apply Hsub|].
    apply elem_of_singleton in Hx. by subst x.
Qed.

End Commit.

(** C4 on the code: a selected suggestion whose name is empty is
    written to the sheet, as a row whose first cell is empty. *)
Theorem nameless_suggestion_is_appended :
  appendCalls
    (trace (run (handleAddSelectedSubTasks sampleTask "sheet-1" namelessSelected
                   Resolved (GetOk None))
              namelessSelected))
  = [[[""; "Editor"; "Todo"; ""; "2025-11-01"]]].
Proof. vm_compute. reflexivity. Qed.

(** The form for a sub-task typed by hand does refuse an empty name. *)
Lemma blank_name_is_not_appended task spreadsheetId (s : State) appendReply getReply :
  JS.blank (newSubTaskName s) = true ->
  trace (run (handleAddNewSubTask task spreadsheetId s appendReply getReply) s)
  = [Alert "Please enter a task name."].
Proof. intros H. unfold handleAddNewSubTask. rewrite H. reflexivity. Qed.

End ProjectDetailFacts.

(* ================================================================= *)
(** ** Project detail view: the add form and the assistant *)

Module ProjectDetailMore.
Import ProjectDetail ProjectDetailFacts.

Section AddForm.
Variable task : Task.
Variable spreadsheetId : string.

Lemma getCalls_fetch w reply :
  getCalls (trace (fetchSheetData task spreadsheetId reply w))
  = getCalls (trace w) ++ ["'" +:+ task_name task +:+ "'!A2:F100"].
Proof.
  unfold fetchSheetData, getCalls, seq, update, call. simpl.
  destruct reply as [values|err]; [|destruct (tabNotFound err) as [[]|]]; simpl;
    by rewrite omap_app.
Qed.

Lemma alerts_fetch w reply :
  alerts (trace (fetchSheetData task spreadsheetId reply w)) = alerts (trace w).
Proof.
  unfold fetchSheetData, alerts, seq, update, call. simpl.
  destruct reply as [values|err]; [|destruct (tabNotFound err) as [[]|]]; simpl;
    rewrite omap_app; simpl; apply app_nil_r.
Qed.

(** X1: the add form writes nothing for a name that is blank: it
    alerts and leaves the state as it is.  For any other name it issues
    one append of the single row [name, assignee, "Todo", "", due date],
    and reads the sheet again only if the append was accepted.  The alert
    of a failed addition is raised when the append was rejected, and also
    when it was accepted but reading the sheet again was rejected with an
    error object that has no message and a code other than 400: the
    [catch] block of the read throws on it, into the one of the form. *)
Theorem add_form_calls (s : State) (appendReply : Reply) (getReply : GetReply) :
  let w := run (handleAddNewSubTask task spreadsheetId s appendReply getReply) s in
  if JS.blank (newSubTaskName s)
  then appendCalls (trace w) = [] /\ getCalls (trace w) = [] /\
       alerts (trace w) = ["Please enter a task name."] /\ view w = s
  else appendCalls (trace w)
         = [[[newSubTaskName s; newSubTaskAssignee s; "Todo"; ""; newSubTaskDueDate s]]] /\
       getCalls (trace w)
         = match appendReply with
           | Resolved => ["'" +:+ task_name task +:+ "'!A2:F100"]
           | Rejected => []
           end /\
       (alerts (trace w) = [] \/
        alerts (trace w) = ["Could not add the new sub-task. Please try again."]) /\
       (alerts (trace w) = [] <->
        appendReply = Resolved /\
        ~ exists err, getReply = GetFailed err /\ MessageMissing err).
Proof.
  cbv zeta. unfold handleAddNewSubTask.
  destruct (JS.blank (newSubTaskName s)).
  - by repeat split.
  - pose proof (fetchThrows_MessageMissing getReply) as Hthrows.
    destruct appendReply; [destruct (fetchThrows getReply)|];
      unfold run, seq, update, call, skip; cbn -[fetchSheetData appendCalls getCalls alerts].
    + unfold appendCalls, getCalls, alerts. rewrite !omap_app.
      fold appendCalls getCalls alerts.
      rewrite appendCalls_fetch, getCalls_fetch, alerts_fetch.
      split; [reflexivity|split; [reflexivity|split; [by right|]]].
      split; [done|]. intros [_ H]. destruct H. by apply Hthrows.
    + rewrite appendCalls_fetch, getCalls_fetch, alerts_fetch.
      split; [reflexivity|split; [reflexivity|split; [by left|]]].
      split; [|done]. intros _. split; [done|]. intros H. by apply Hthrows in H.
    + split; [reflexivity|split; [reflexivity|split; [by right|]]].
      split; [done|]. by intros [? _].
Qed.

Lemma inputs_fetch w reply :
  newSubTaskName (view (fetchSheetData task spreadsheetId reply w)) = newSubTaskName (view w) /\
  newSubTaskAssignee (view (fetchSheetData task spreadsheetId reply w))
    = newSubTaskAssignee (view w) /\
  newSubTaskDueDate (view (fetchSheetData task spreadsheetId reply w))
    = newSubTaskDueDate (view w).
Proof.
  unfold fetchSheetData, seq, update, call. simpl.
  destruct reply as [values|err]; [|destruct (tabNotFound err) as [[]|]]; by simpl.
Qed.

(** X2: once the name is not blank, an accepted append empties the
    three fields of the form, while a rejected one changes nothing in the
    state, so that what was typed can be sent again. *)
Theorem add_form_fields (s : State) (appendReply : Reply) (getReply : GetReply) :
  JS.blank (newSubTaskName s) = false -> isAdding s = false ->
  let s' := view (run (handleAddNewSubTask task spreadsheetId s appendReply getReply) s) in
  match appendReply with
  | Resolved =>
      newSubTaskName s' = "" /\ newSubTaskAssignee s' = "" /\ newSubTaskDueDate s' = "" /\
      isAdding s' = false
  | Rejected => s' = s
  end.
Proof.
  intros Hname Hadding. cbv zeta. unfold handleAddNewSubTask. rewrite Hname.
  destruct appendReply; [destruct (fetchThrows getReply)|];
    unfold run, seq, update, call, skip; cbn -[fetchSheetData].
  1,2: destruct (inputs_fetch
      {| view := setNewSubTaskDueDate "" (setNewSubTaskAssignee ""
                   (setNewSubTaskName "" (setIsAdding true s)));
         trace := [SheetsAppend spreadsheetId (squote +:+ task_name task +:+ "'!A:E")
                     [[newSubTaskName s; newSubTaskAssignee s; "Todo"; "";
                       newSubTaskDueDate s]]] |} getReply) as (-> & -> & ->).
  1,2: by repeat split.
  destruct s; simpl in *. by subst.
Qed.

(** A name made of a no-break space (U+00A0) is blank. *)
Example add_form_refuses_wide_space :
  trace (run (handleAddNewSubTask task spreadsheetId
                (setNewSubTaskName (String "194" (String "160" "")) initialState)
                Resolved (GetOk None))
           (setNewSubTaskName (String "194" (String "160" "")) initialState))
  = [Alert "Please enter a task name."].
Proof. reflexivity. Qed.

(** The append is accepted, and reading the sheet again is rejected with
    an error object that has no message. *)
Example add_form_alerts_after_accepted_append :
  alerts (trace (run (handleAddNewSubTask task spreadsheetId
                        (setNewSubTaskName "Book studio" initialState)
                        Resolved (GetFailed (Some messagelessError)))
                   (setNewSubTaskName "Book studio" initialState)))
  = ["Could not add the new sub-task. Please try again."].
Proof. reflexivity. Qed.

End AddForm.

Lemma add_form_fields_witness :
  let s := setNewSubTaskName "Book studio" (setIsLoading false initialState) in
  JS.blank (newSubTaskName s) = false /\ isAdding s = false /\
  view (run (handleAddNewSubTask sampleTask "sheet-1" s Rejected (GetOk None)) s) = s.
Proof.
  cbv zeta. split; [reflexivity|]. split; [reflexivity|].
  exact (add_form_fields sampleTask "sheet-1"
           (setNewSubTaskName "Book studio" (setIsLoading false initialState))
           Rejected (GetOk None) eq_refl eq_refl).
Defined.

Lemma filter_Forall_id {A} (P : A -> Prop) `{!forall x, Decision (P x)} (l : list A) :
  Forall P l -> filter P l = l.
Proof.
  induction 1 as [|x l Hx _ IH]; [reflexivity|].
  by rewrite filter_cons_True, IH.
Qed.

Section Assistant.
Variable task : Task.
Variable spreadsheetId : string.

Lemma commit_payload (s : State) (appendReply : Reply) (getReply : GetReply) :
  appendCalls (trace (run (handleAddSelectedSubTasks task spreadsheetId s appendReply getReply) s))
  = match filter (fun t => sug_id t ∈ selectedSubTasks s) (suggestedSubTasks s) with
    | [] => []
    | selected => [suggestionRow <$> selected]
    end.
Proof.
  destruct (filter _ (suggestedSubTasks s)) as [|t selected] eqn:E.
  - unfold handleAddSelectedSubTasks. by rewrite tasksToAdd_filter, E.
  - rewrite <- E. apply commit_appendCalls. by rewrite E.
Qed.

(** X3: the assistant is not called for a blank goal or while a
    generation is in flight, and then nothing changes.  Otherwise it is
    called once; what it returns replaces the suggestions held before,
    each tagged with its own id and all of them selected, and a failure
    leaves no suggestion and no selection behind, only the error. *)
Theorem generate_outcome (s : State) (reply : GenerateReply) :
  let w := run (handleGenerateSubTasks task s reply) s in
  if JS.blank (aiGoalInput s) || isGenerating s
  then w = {| view := s; trace := [] |}
  else
    generateCalls (trace w) = [subTaskPrompt task (aiGoalInput s)] /\
    isGenerating (view w) = false /\
    match reply with
    | Generated generatedTasks =>
        suggestedSubTasks (view w) = imap tagSuggestion generatedTasks /\
        NoDup (sug_id <$> suggestedSubTasks (view w)) /\
        selectedSubTasks (view w) = list_to_set (sug_id <$> suggestedSubTasks (view w)) /\
        size (selectedSubTasks (view w)) = length generatedTasks /\
        generationError (view w) = None
    | GenerateFailed =>
        suggestedSubTasks (view w) = [] /\
        selectedSubTasks (view w) = ∅ /\
        generationError (view w)
          = Some "Sorry, I couldn't generate sub-tasks for that. Please try rephrasing your goal."
    end.
Proof.
  cbv zeta. unfold handleGenerateSubTasks.
  destruct (JS.blank (aiGoalInput s) || isGenerating s); [reflexivity|].
  destruct reply as [generatedTasks|]; simpl; [|by repeat split].
  rewrite generated_ids.
  split; [reflexivity|]. split; [reflexivity|]. split; [reflexivity|].
  split; [apply generated_ids_NoDup|]. split; [reflexivity|]. split; [|reflexivity].
  rewrite size_list_to_set by apply generated_ids_NoDup. apply length_imap.
Qed.

(** X4: committing right after a generation writes every generated
    task, in the order the assistant gave them, a missing field as an
    empty cell; after a failed generation, committing issues no call. *)
Theorem generate_then_commit (s : State) (generatedTasks : list GeneratedTask)
    (appendReply : Reply) (getReply : GetReply) :
  JS.blank (aiGoalInput s) = false -> isGenerating s = false ->
  let s1 := view (run (handleGenerateSubTasks task s (Generated generatedTasks)) s) in
  let s0 := view (run (handleGenerateSubTasks task s GenerateFailed) s) in
  appendCalls (trace (run (handleAddSelectedSubTasks task spreadsheetId s1 appendReply getReply) s1))
  = match generatedTasks with
    | [] => []
    | _ => [(fun t => [JS.orElse (gen_name t) ""; JS.orElse (gen_assignee t) ""; "Todo"; "";
                       JS.orElse (gen_dueDate t) ""]) <$> generatedTasks]
    end /\
  trace (run (handleAddSelectedSubTasks task spreadsheetId s0 appendReply getReply) s0) = [].
Proof.
  intros Hgoal Hidle. cbv zeta. split.
  - destruct (generate_selects_all task s generatedTasks Hgoal Hidle) as (Hsug & Hsel & _).
    cbv zeta in Hsug, Hsel. rewrite commit_payload, Hsel.
    rewrite filter_Forall_id.
    + rewrite Hsug.
      assert (Hrows : suggestionRow <$> imap tagSuggestion generatedTasks
                = (fun t => [JS.orElse (gen_name t) ""; JS.orElse (gen_assignee t) "";
                             "Todo"; ""; JS.orElse (gen_dueDate t) ""]) <$> generatedTasks).
      { rewrite fmap_imap. rewrite <- imap_const. reflexivity. }
      destruct generatedTasks as [|t generatedTasks]; [reflexivity|].
      cbn [imap]. f_equal. exact Hrows.
    + apply Forall_forall. intros t Ht.
      rewrite elem_of_list_to_set, list_elem_of_fmap. eauto.
  - unfold handleGenerateSubTasks. by rewrite Hgoal, Hidle.
Qed.

Lemma view_toggle (s : State) (taskId : string) :
  view (run (handleToggleSuggestedTask s taskId) s)
  = setSelectedSubTasks
      (if decide (taskId ∈ selectedSubTasks s)
       then selectedSubTasks s ∖ {[taskId]} else selectedSubTasks s ∪ {[taskId]}) s.
Proof. reflexivity. Qed.

(** X5: ticking a suggestion flips the membership of its id in the
    selection and of no other id, and ticking it twice gives back the
    state it started from. *)
Theorem toggle_twice (s : State) (taskId : string) :
  let s1 := view (run (handleToggleSuggestedTask s taskId) s) in
  let s2 := view (run (handleToggleSuggestedTask s1 taskId) s1) in
  (taskId ∈ selectedSubTasks s1 <-> taskId ∉ selectedSubTasks s) /\
  (forall x, x <> taskId -> (x ∈ selectedSubTasks s1 <-> x ∈ selectedSubTasks s)) /\
  s2 = s.
Proof.
  cbv zeta. rewrite !view_toggle. simpl selectedSubTasks.
  destruct (decide (taskId ∈ selectedSubTasks s)) as [Hin|Hout].
  - split; [|split].
    + rewrite elem_of_difference, elem_of_singleton. tauto.
    + intros x Hx. rewrite elem_of_difference, elem_of_singleton. tauto.
    + rewrite decide_False
        by (rewrite elem_of_difference, elem_of_singleton; tauto).
      assert (selectedSubTasks s ∖ {[taskId]} ∪ {[taskId]} = selectedSubTasks s) as ->.
      { apply set_eq. intros x.
        rewrite elem_of_union, elem_of_difference, elem_of_singleton.
        destruct (decide (x = taskId)) as [->|]; tauto. }
      by destruct s.
  - split; [|split].
    + rewrite elem_of_union, elem_of_singleton. tauto.
    + intros x Hx. rewrite elem_of_union, elem_of_singleton. tauto.
    + rewrite decide_True by (rewrite elem_of_union, elem_of_singleton; tauto).
      assert ((selectedSubTasks s ∪ {[taskId]}) ∖ {[taskId]} = selectedSubTasks s) as ->.
      { apply set_eq. intros x.
        rewrite elem_of_difference, elem_of_union, elem_of_singleton.
        destruct (decide (x = taskId)) as [->|]; tauto. }
      by destruct s.
Qed.


(** X7: while the selection only holds ids of listed suggestions and
    no append is in flight, the commit button is enabled exactly when a
    click on it writes to the sheet. *)
Theorem commit_button_enabled (s : State) (appendReply : Reply) (getReply : GetReply) :
  SelectionOfSuggestions s -> isAdding s = false ->
  (addSelectedDisabled s = false <->
   appendCalls
     (trace (run (handleAddSelectedSubTasks task spreadsheetId s appendReply getReply) s))
   <> []).
Proof.
  intros Hsel Hadding. unfold addSelectedDisabled.
  rewrite Hadding, commit_payload, <- (selected_count s Hsel). simpl.
  destruct (filter _ (suggestedSubTasks s)); simpl; split; congruence.
Qed.

End Assistant.

Lemma generate_then_commit_witness :
  JS.blank (aiGoalInput goalTyped) = false /\ isGenerating goalTyped = false /\
  let s1 := view (run (handleGenerateSubTasks sampleTask goalTyped
                         (Generated sampleGenerated)) goalTyped) in
  appendCalls (trace (run (handleAddSelectedSubTasks sampleTask "sheet-1" s1
                             Resolved (GetOk None)) s1))
  = [[["Book studio"; "Producer"; "Todo"; ""; "2025-11-03"];
      ["Scout props"; ""; "Todo"; ""; ""];
      ["Edit teaser"; "Editor"; "Todo"; ""; "2025-11-10"]]].
Proof.
  split; [reflexivity|]. split; [reflexivity|].
  exact (proj1 (generate_then_commit sampleTask "sheet-1" goalTyped sampleGenerated
                  Resolved (GetOk None) eq_refl eq_refl)).
Defined.

Lemma commit_button_enabled_witness :
  SelectionOfSuggestions namelessSelected /\ isAdding namelessSelected = false /\
  addSelectedDisabled namelessSelected = false.
Proof.
  assert (H : SelectionOfSuggestions namelessSelected).
  { split; [by apply (bool_decide_unpack _); vm_compute|].
    by apply (bool_decide_unpack _); vm_compute. }
  split; [exact H|]. split; [reflexivity|].
  apply (commit_button_enabled sampleTask "sheet-1" namelessSelected Resolved (GetOk None)
           H eq_refl).
  by vm_compute.
Defined.

Section Rows.
Variable task : Task.
Variable spreadsheetId : string.

(** X8: a status toggle changes no id, name, assignee or due date of
    any row, and a name edit changes no id, status, assignee or due
    date, whatever the reply of the write: the rows keep their number and
    their addresses in the sheet. *)
Theorem edits_keep_other_columns (s : State) (st : SubTask) (isChecked : bool)
    (newName : string) (reply : Reply) :
  let toggled := subTasks (view (run (handleStatusChange task spreadsheetId s st isChecked reply) s)) in
  let renamed := subTasks (view (run (handleNameChange task spreadsheetId s st newName reply) s)) in
  sub_id <$> toggled = sub_id <$> subTasks s /\
  sub_name <$> toggled = sub_name <$> subTasks s /\
  sub_assignee <$> toggled = sub_assignee <$> subTasks s /\
  sub_dueDate <$> toggled = sub_dueDate <$> subTasks s /\
  sub_id <$> renamed = sub_id <$> subTasks s /\
  sub_status <$> renamed = sub_status <$> subTasks s /\
  sub_assignee <$> renamed = sub_assignee <$> subTasks s /\
  sub_dueDate <$> renamed = sub_dueDate <$> subTasks s.
Proof.
  cbv zeta. rewrite view_handleStatusChange, view_handleNameChange. simpl subTasks.
  rewrite <- !list_fmap_compose.
  repeat split; apply list_fmap_ext; intros i x _; unfold withStatus, withName; simpl;
    by destruct (sub_id x =? sub_id st).
Qed.

Lemma fmap_only_at {A} (f : A -> A) (l : list A) (i : nat) (x : A) :
  l !! i = Some x ->
  (forall j y, l !! j = Some y -> j <> i -> f y = y) ->
  f <$> l = <[i := f x]> l.
Proof.
  intros Hi Hother. apply list_eq. intros j.
  rewrite list_lookup_fmap.
  destruct (decide (j = i)) as [->|Hne].
  - rewrite list_lookup_insert_eq by (by eapply lookup_lt_Some). by rewrite Hi.
  - rewrite list_lookup_insert_ne by done.
    destruct (l !! j) as [y|] eqn:Hj; [|done]. simpl. f_equal. by eapply Hother.
Qed.

(** X9: when the rows carry distinct ids, as they do after a fetch, an
    edit of the row at place [i] replaces that row and no other. *)
Theorem edit_replaces_one_row (s : State) (i : nat) (st : SubTask) (isChecked : bool)
    (newName : string) (reply : Reply) :
  NoDup (sub_id <$> subTasks s) -> subTasks s !! i = Some st ->
  subTasks (view (run (handleStatusChange task spreadsheetId s st isChecked reply) s))
  = <[i := {| sub_id := sub_id st;
              sub_status := if isChecked then "Done" else "In Progress";
              sub_name := sub_name st; sub_assignee := sub_assignee st;
              sub_dueDate := sub_dueDate st |}]> (subTasks s) /\
  subTasks (view (run (handleNameChange task spreadsheetId s st newName reply) s))
  = <[i := {| sub_id := sub_id st; sub_status := sub_status st; sub_name := newName;
              sub_assignee := sub_assignee st; sub_dueDate := sub_dueDate st |}]> (subTasks s).
Proof.
  intros Hnodup Hi.
  assert (Hother : forall j y, subTasks s !! j = Some y -> j <> i ->
                     (sub_id y =? sub_id st) = false).
  { intros j y Hj Hne. apply Nat.eqb_neq. intros Heq. apply Hne.
    eapply NoDup_lookup; [exact Hnodup| |].
    - rewrite list_lookup_fmap, Hj. reflexivity.
    - rewrite list_lookup_fmap, Hi. simpl. by rewrite Heq. }
  rewrite view_handleStatusChange, view_handleNameChange. simpl subTasks. split.
  - rewrite (fmap_only_at _ _ i st Hi).
    + unfold withStatus. by rewrite Nat.eqb_refl.
    + intros j y Hj Hne. unfold withStatus. by rewrite (Hother j y Hj Hne).
  - rewrite (fmap_only_at _ _ i st Hi).
    + unfold withName. by rewrite Nat.eqb_refl.
    + intros j y Hj Hne. unfold withName. by rewrite (Hother j y Hj Hne).
Qed.

(** X10: a rejected fetch turns loading off and keeps the rows it
    had.  It hides the table behind an error, unless the error object of
    the rejection has no message and a code other than 400: the [catch]
    block then throws before it sets an error, and the table shows the
    rows read before.  The next accepted fetch removes the error and
    shows the rows just read.  Each fetch is one read of the tab, and
    neither touches the suggestions, the selection or the fields of the
    add form. *)
Theorem fetch_failure_then_success (s : State) (err : option ProviderError)
    (values : option (list Row)) :
  let w1 := run (fetchSheetData task spreadsheetId (GetFailed err)) s in
  let w2 := run (fetchSheetData task spreadsheetId (GetOk values)) (view w1) in
  (~ MessageMissing err -> error (view w1) <> None /\ visibleSubTasks (view w1) = []) /\
  (MessageMissing err -> error (view w1) = None /\ visibleSubTasks (view w1) = subTasks s) /\
  subTasks (view w1) = subTasks s /\
  isLoading (view w1) = false /\
  error (view w2) = None /\
  visibleSubTasks (view w2) = tasksWithIds (default [] values) /\
  trace w1 = [SheetsGet spreadsheetId ("'" +:+ task_name task +:+ "'!A2:F100")] /\
  trace w2 = [SheetsGet spreadsheetId ("'" +:+ task_name task +:+ "'!A2:F100")] /\
  suggestedSubTasks (view w2) = suggestedSubTasks s /\
  selectedSubTasks (view w2) = selectedSubTasks s /\
  newSubTaskName (view w2) = newSubTaskName s /\
  aiGoalInput (view w2) = aiGoalInput s.
Proof.
  cbv zeta. pose proof (tabNotFound_MessageMissing err) as Hthrows.
  unfold fetchSheetData.
  destruct (tabNotFound err) as [[]|]; (split; [|split; [|by repeat split]]).
  - by intros _.
  - intros H%Hthrows. discriminate H.
  - by intros _.
  - intros H%Hthrows. discriminate H.
  - intros H. destruct H. by apply Hthrows.
  - by intros _.
Qed.

End Rows.

Lemma fetch_failure_then_success_witness :
  let shown := setSubTasks (tasksWithIds sampleRows) (setIsLoading false initialState) in
  (~ MessageMissing (Some forbiddenError) /\
   visibleSubTasks
     (view (run (fetchSheetData sampleTask "sheet-1" (GetFailed (Some forbiddenError))) shown))
   = []) /\
  (MessageMissing (Some messagelessError) /\
   visibleSubTasks
     (view (run (fetchSheetData sampleTask "sheet-1" (GetFailed (Some messagelessError))) shown))
   = [rowToSubTask 1 ["Buy props"; "A"; "Done"]]).
Proof.
  cbv zeta.
  assert (~ MessageMissing (Some forbiddenError)) as Hno.
  { by intros (e & [= <-] & _ & H). }
  assert (MessageMissing (Some messagelessError)) as Hyes.
  { eexists. by repeat split. }
  split; (split; [done|]).
  - exact (proj2 (proj1 (fetch_failure_then_success sampleTask "sheet-1" _ _ None) Hno)).
  - exact (proj2 (proj1 (proj2 (fetch_failure_then_success sampleTask "sheet-1"
                                  (setSubTasks (tasksWithIds sampleRows)
                                     (setIsLoading false initialState))
                                  _ None)) Hyes)).
Defined.

Lemma edit_replaces_one_row_witness :
  let s := setSubTasks (tasksWithIds [["Book studio"; "Sammy"]; ["Buy props"; "A"; "Done"]])
             initialState in
  NoDup (sub_id <$> subTasks s) /\
  subTasks s !! 1 = Some (rowToSubTask 1 ["Buy props"; "A"; "Done"]) /\
  subTasks (view (run (handleStatusChange sampleTask "sheet-1" s
                         (rowToSubTask 1 ["Buy props"; "A"; "Done"]) false Rejected) s))
  = [rowToSubTask 0 ["Book studio"; "Sammy"];
     rowToSubTask 1 ["Buy props"; "A"; "In Progress"]].
Proof.
  cbv zeta.
  assert (H : NoDup (sub_id <$> subTasks (setSubTasks
                (tasksWithIds [["Book studio"; "Sammy"]; ["Buy props"; "A"; "Done"]])
                initialState))).
  { by apply (bool_decide_unpack _); vm_compute. }
  split; [exact H|]. split; [reflexivity|].
  exact (proj1 (edit_replaces_one_row sampleTask "sheet-1" _ 1
                  (rowToSubTask 1 ["Buy props"; "A"; "Done"]) false "" Rejected H eq_refl)).
Defined.

End ProjectDetailMore.

(* ================================================================= *)
(** ** Hub view: more on the task list *)

Lemma elem_of_List_filter {A} (p : A -> bool) (l : list A) (z : A) :
  z ∈ List.filter p l <-> z ∈ l /\ p z = true.
Proof. rewrite !list_elem_of_In. apply List.filter_In. Qed.

Section SortCommutes.
Context {A : Type} (comparefn : A -> A -> JS.number).
Variable dom : A -> Prop.
Variable R : A -> A -> Prop.
Hypothesis R_trans : forall x y z, dom x -> dom y -> dom z -> R x y -> R y z -> R x z.
Hypothesis comparefn_R :
  forall x y, dom x -> dom y -> if JS.gt0 (comparefn x y) then R y x else R x y.
Hypothesis R_comparefn :
  forall x y, dom x -> dom y -> R x y -> JS.gt0 (comparefn x y) = false.

Lemma insert_before_all x l :
  dom x -> Forall dom l -> Forall (R x) l -> JS.insert comparefn x l = x :: l.
Proof.
  intros Hx Hl HR. destruct l as [|y l]; [reflexivity|]. simpl.
  apply Forall_cons in Hl as [Hy _]. apply Forall_cons in HR as [Hxy _].
  by rewrite R_comparefn.
Qed.

Lemma sort_of_sorted l :
  Forall dom l -> StronglySorted R l -> JS.sort comparefn l = l.
Proof.
  intros Hl Hs. induction Hs as [|x l Hs IH Hx]; [reflexivity|]. simpl.
  apply Forall_cons in Hl as [Hdx Hl].
  rewrite IH by done. by apply insert_before_all.
Qed.

Lemma List_filter_insert_out (p : A -> bool) x l :
  p x = false ->
  List.filter p (JS.insert comparefn x l) = List.filter p l.
Proof.
  intros Hp. induction l as [|y l IH]; simpl; [by rewrite Hp|].
  destruct (JS.gt0 (comparefn x y)); simpl; [by rewrite IH|by rewrite Hp].
Qed.

Lemma List_filter_insert_in (p : A -> bool) x l :
  p x = true -> dom x -> Forall dom l -> StronglySorted R l ->
  List.filter p (JS.insert comparefn x l) = JS.insert comparefn x (List.filter p l).
Proof.
  intros Hp Hx Hl Hs. induction Hs as [|y l Hs IH Hy]; simpl; [by rewrite Hp|].
  apply Forall_cons in Hl as [Hdy Hl].
  destruct (JS.gt0 (comparefn x y)) eqn:E; simpl.
  - destruct (p y); simpl; rewrite ?E, IH; done.
  - rewrite Hp. symmetry.
    pose proof (comparefn_R x y Hx Hdy) as Hxy. rewrite E in Hxy.
    apply insert_before_all; [done| |].
    + apply Forall_forall. intros z Hz.
      change (z ∈ List.filter p (y :: l)) in Hz.
      apply elem_of_List_filter in Hz as [Hz _].
      assert (Hdom : Forall dom (y :: l)) by by constructor.
      rewrite Forall_forall in Hdom. by apply Hdom.
    + assert (Hall : Forall (R x) (y :: l)).
      { constructor; [done|]. rewrite Forall_forall in Hy, Hl |- *.
        intros z Hz. apply (R_trans x y z); auto. }
      rewrite Forall_forall in Hall |- *. intros z Hz. apply Hall.
      change (z ∈ List.filter p (y :: l)) in Hz.
      by apply elem_of_List_filter in Hz as [Hz _].
Qed.

Lemma List_filter_sort (p : A -> bool) l :
  Forall dom l ->
  List.filter p (JS.sort comparefn l) = JS.sort comparefn (List.filter p l).
Proof.
  induction l as [|x l IH]; intros Hl; simpl; [reflexivity|].
  apply Forall_cons in Hl as [Hx Hl].
  destruct (p x) eqn:Hp; simpl.
  - rewrite List_filter_insert_in, IH; try done.
    + by rewrite sort_Permutation.
    + by apply (sort_StronglySorted comparefn dom R).
  - by rewrite List_filter_insert_out, IH.
Qed.

End SortCommutes.

Module AppMore.
Import App AppFacts.

Lemma le_gt0_sub a b :
  a <> JS.NaN -> b <> JS.NaN -> JS.le a b -> JS.gt0 (JS.sub a b) = false.
Proof.
  intros Ha Hb. destruct a, b; simpl; try congruence; try tauto.
  intros Hle. apply Z.ltb_ge. lia.
Qed.

Lemma List_filter_all tasks : List.filter (matchesFilter "all") tasks = tasks.
Proof. induction tasks as [|t tasks IH]; simpl; [reflexivity|]. by rewrite IH. Qed.

Lemma List_filter_twice {A} (p : A -> bool) l :
  List.filter p (List.filter p l) = List.filter p l.
Proof.
  induction l as [|x l IH]; simpl; [reflexivity|].
  destruct (p x) eqn:E; simpl; by rewrite ?E, IH.
Qed.

Section TaskListMore.
Variable Date_getTime : string -> option Z.

Lemma elem_of_renderedTasks activeFilter tasks t :
  t ∈ renderedTasks Date_getTime activeFilter tasks <-> t ∈ tasks /\ Matches activeFilter t.
Proof.
  unfold renderedTasks. rewrite sort_Permutation, elem_of_List_filter.
  by rewrite matchesFilter_Matches.
Qed.

(** X11: whatever the due dates are, readable or not, the rendered
    list is a rearrangement of the tasks that match the filter: no task
    is lost, none is shown twice or more often than it was added, and
    under ["all"] every task is shown. *)
Theorem renderedTasks_loses_nothing (activeFilter : string) (tasks : list Task) :
  let shown := renderedTasks Date_getTime activeFilter tasks in
  shown ≡ₚ filter (Matches activeFilter) tasks /\
  (forall t, t ∈ shown <-> t ∈ tasks /\ Matches activeFilter t) /\
  renderedTasks Date_getTime "all" tasks ≡ₚ tasks /\
  length shown <= length tasks.
Proof.
  cbv zeta. unfold renderedTasks. rewrite List_filter_all, filter_matchesFilter.
  split; [apply sort_Permutation|]. split.
  - intros t. rewrite sort_Permutation, list_elem_of_filter. tauto.
  - split; [apply sort_Permutation|].
    rewrite sort_Permutation. apply length_filter.
Qed.

Lemma dueDateParses_filter p tasks :
  Forall (dueDateParses Date_getTime) tasks ->
  Forall (dueDateParses Date_getTime) (List.filter p tasks).
Proof.
  rewrite !Forall_forall. intros H t Ht. apply elem_of_List_filter in Ht as [Ht _]. auto.
Qed.

(** X12: on a list whose due dates are unset or readable, choosing a
    filter only hides tasks: the list under a filter is the list under
    ["all"] with the other tasks taken out, in the same order.  Rendering
    what is already rendered changes nothing. *)
Theorem filter_keeps_order (activeFilter : string) (tasks : list Task) :
  Forall (dueDateParses Date_getTime) tasks ->
  renderedTasks Date_getTime activeFilter tasks
  = List.filter (matchesFilter activeFilter) (renderedTasks Date_getTime "all" tasks) /\
  renderedTasks Date_getTime activeFilter (renderedTasks Date_getTime activeFilter tasks)
  = renderedTasks Date_getTime activeFilter tasks.
Proof.
  intros Hparse.
  set (R := fun a b => JS.le (dueTime Date_getTime a) (dueTime Date_getTime b)).
  assert (Htrans : forall x y z : Task,
            dueDateParses Date_getTime x -> dueDateParses Date_getTime y ->
            dueDateParses Date_getTime z -> R x y -> R y z -> R x z).
  { intros x y z _ _ _. apply number_le_trans. }
  assert (Hcmp : forall x y : Task,
            dueDateParses Date_getTime x -> dueDateParses Date_getTime y ->
            if JS.gt0 (compareDue Date_getTime x y) then R y x else R x y).
  { intros x y Hx%dueDateParses_NaN Hy%dueDateParses_NaN. by apply gt0_sub_le. }
  assert (Hle : forall x y : Task,
            dueDateParses Date_getTime x -> dueDateParses Date_getTime y ->
            R x y -> JS.gt0 (compareDue Date_getTime x y) = false).
  { intros x y Hx%dueDateParses_NaN Hy%dueDateParses_NaN. by apply le_gt0_sub. }
  unfold renderedTasks. rewrite List_filter_all. split.
  - symmetry.
    by apply (List_filter_sort _ (dueDateParses Date_getTime) R Htrans Hcmp Hle).
  - rewrite (List_filter_sort _ (dueDateParses Date_getTime) R Htrans Hcmp Hle)
      by by apply dueDateParses_filter.
    rewrite List_filter_twice.
    apply (sort_of_sorted _ (dueDateParses Date_getTime) R Hle).
    + rewrite sort_Permutation. by apply dueDateParses_filter.
    + apply (sort_StronglySorted _ (dueDateParses Date_getTime) R Htrans Hcmp).
      by apply dueDateParses_filter.
Qed.

End TaskListMore.

Lemma filter_keeps_order_witness :
  Forall (dueDateParses UtcHost.getTime) initialTasks /\
  renderedTasks UtcHost.getTime "Taylor Trash" initialTasks
  = List.filter (matchesFilter "Taylor Trash") (renderedTasks UtcHost.getTime "all" initialTasks).
Proof.
  assert (H : Forall (dueDateParses UtcHost.getTime) initialTasks).
  { unfold initialTasks. repeat (constructor; [due_date_parses|]). constructor. }
  split; [exact H|].
  exact (proj1 (filter_keeps_order UtcHost.getTime "Taylor Trash" initialTasks H)).
Defined.

(* ================================================================= *)
(** ** Hub view: adding a task *)

Lemma truthy_orElse v d : JS.truthy v = true -> Some (JS.orElse v d) = v /\ JS.orElse v d <> "".
Proof. by destruct v as [[|c n]|]. Qed.

(** X13: a request never removes, changes or reorders a task.  It
    either leaves the list as it is or adds one task at its end, built
    from the reply, with a name, an assignee and a due date that are not
    empty, status "Todo" and no start date.  The filter, the tab, the
    selection and the session are not touched, and a blank request, or
    one made while another is pending, does nothing at all. *)
Theorem handleAddTask_only_appends (reply : ExtractReply) (s : State) :
  let s' := handleAddTask reply s in
  (tasks s' = tasks s \/
   exists d, reply = Extracted d /\ tasks s' = tasks s ++ [newTask d] /\
     Some (task_name (newTask d)) = td_name d /\ task_name (newTask d) <> "" /\
     Some (task_assignee (newTask d)) = td_assignee d /\ task_assignee (newTask d) <> "" /\
     hasDueDate (newTask d) = true /\
     task_status (newTask d) = "Todo" /\ task_startDate (newTask d) = None) /\
  activeFilter s' = activeFilter s /\ activeTab s' = activeTab s /\
  selectedTask s' = selectedTask s /\ isSignedIn s' = isSignedIn s /\
  spreadsheetId s' = spreadsheetId s /\ gapiReady s' = gapiReady s /\
  tokenClient s' = tokenClient s /\
  (JS.blank (newTaskInput s) || isLoading s = true -> s' = s).
Proof.
  cbv zeta. unfold handleAddTask.
  destruct (JS.blank (newTaskInput s) || isLoading s); [by repeat split; try left|].
  split; [|by destruct reply as [d|];
             [destruct (JS.truthy (td_name d) && JS.truthy (td_assignee d) &&
                        JS.truthy (td_dueDate d))|]].
  destruct reply as [d|]; [|by left].
  destruct (JS.truthy (td_name d)) eqn:Hn; [|by left].
  destruct (JS.truthy (td_assignee d)) eqn:Ha; [|by left].
  destruct (JS.truthy (td_dueDate d)) eqn:Hd; [|by left].
  right. exists d. simpl.
  destruct (truthy_orElse _ "" Hn), (truthy_orElse _ "" Ha). by repeat split.
Qed.

(** X14: a request that fails keeps what was typed, turns loading off
    and shows the message; sending the same request again, with a usable
    reply this time, adds the task, empties the field and removes the
    message. *)
Theorem failed_request_can_be_sent_again (d : TaskData) (s : State) :
  JS.blank (newTaskInput s) = false -> isLoading s = false ->
  JS.truthy (td_name d) && JS.truthy (td_assignee d) && JS.truthy (td_dueDate d) = true ->
  let s1 := handleAddTask ExtractFailed s in
  let s2 := handleAddTask (Extracted d) s1 in
  newTaskInput s1 = newTaskInput s /\ isLoading s1 = false /\ tasks s1 = tasks s /\
  error s1 = Some (Message sorryMessage) /\
  tasks s2 = tasks s ++ [newTask d] /\ error s2 = None /\
  newTaskInput s2 = "" /\ isLoading s2 = false.
Proof.
  intros Hinput Hidle Hd. cbv zeta. unfold handleAddTask.
  rewrite Hinput, Hidle. simpl. rewrite Hinput, Hd. by repeat split.
Qed.

Lemma failed_request_can_be_sent_again_witness :
  let d := {| td_name := Some "Edit sizzle reel"; td_assignee := Some "Jess";
              td_dueDate := Some "2025-11-07"; td_priority := Some "Low Priority";
              td_notes := None |} in
  JS.blank (newTaskInput requestTyped) = false /\ isLoading requestTyped = false /\
  error (handleAddTask (Extracted d) (handleAddTask ExtractFailed requestTyped)) = None.
Proof.
  cbv zeta. split; [reflexivity|]. split; [reflexivity|].
  exact (proj1 (proj2 (proj2 (proj2 (proj2 (proj2
    (failed_request_can_be_sent_again
       {| td_name := Some "Edit sizzle reel"; td_assignee := Some "Jess";
          td_dueDate := Some "2025-11-07"; td_priority := Some "Low Priority";
          td_notes := None |} requestTyped eq_refl eq_refl eq_refl))))))).
Defined.

Section Listing.
Variable Date_getTime : string -> option Z.

Lemma handleAddTask_accepted (d : TaskData) (s : State) :
  JS.blank (newTaskInput s) = false -> isLoading s = false ->
  JS.truthy (td_name d) && JS.truthy (td_assignee d) && JS.truthy (td_dueDate d) = true ->
  tasks (handleAddTask (Extracted d) s) = tasks s ++ [newTask d].
Proof.
  intros Hinput Hidle Hd. unfold handleAddTask. by rewrite Hinput, Hidle, Hd.
Qed.

(** X15: a task that was just added is in the list under ["all"];
    under any other filter it is listed exactly when the assignee the
    assistant returned is that filter, character for character. *)
Theorem added_task_is_listed (d : TaskData) (s : State) (activeFilter : string) :
  JS.blank (newTaskInput s) = false -> isLoading s = false ->
  JS.truthy (td_name d) && JS.truthy (td_assignee d) && JS.truthy (td_dueDate d) = true ->
  let s' := handleAddTask (Extracted d) s in
  newTask d ∈ renderedTasks Date_getTime "all" (tasks s') /\
  (newTask d ∈ renderedTasks Date_getTime activeFilter (tasks s') <->
   activeFilter = "all" \/ td_assignee d = Some activeFilter).
Proof.
  intros Hinput Hidle Hd. cbv zeta.
  rewrite (handleAddTask_accepted d s Hinput Hidle Hd), !elem_of_renderedTasks.
  assert (Hin : newTask d ∈ tasks s ++ [newTask d]).
  { apply elem_of_app. right. by apply list_elem_of_singleton. }
  apply andb_true_iff in Hd as [Hd _]. apply andb_true_iff in Hd as [_ Ha].
  destruct (truthy_orElse _ "" Ha) as [Hassignee _].
  unfold Matches. split; [split; [done|by left]|].
  split.
  - intros [_ [->|Heq]]; [by left|right]. simpl in Heq. by rewrite <- Hassignee, Heq.
  - intros [->|Heq]; (split; [done|]); [by left|right].
    rewrite Heq in Hassignee. simpl. congruence.
Qed.

End Listing.

Lemma added_task_is_listed_witness :
  let d := {| td_name := Some "Edit sizzle reel"; td_assignee := Some "Jess";
              td_dueDate := Some "2025-11-07"; td_priority := Some "Low Priority";
              td_notes := None |} in
  JS.blank (newTaskInput requestTyped) = false /\ isLoading requestTyped = false /\
  ~ newTask d ∈ renderedTasks UtcHost.getTime "jess@trashtv.productions"
                  (tasks (handleAddTask (Extracted d) requestTyped)).
Proof.
  cbv zeta. split; [reflexivity|]. split; [reflexivity|].
  intros Hin.
  destruct (added_task_is_listed UtcHost.getTime
              {| td_name := Some "Edit sizzle reel"; td_assignee := Some "Jess";
                 td_dueDate := Some "2025-11-07"; td_priority := Some "Low Priority";
                 td_notes := None |}
              requestTyped "jess@trashtv.productions" eq_refl eq_refl eq_refl) as [_ H].
  apply H in Hin. destruct Hin as [Hin|Hin]; discriminate Hin.
Defined.

(* ================================================================= *)
(** ** Hub view: the classes of a task item *)

Lemma lowerChar_lowerChar c : JS.lowerChar (JS.lowerChar c) = JS.lowerChar c.
Proof. destruct c as [[] [] [] [] [] [] [] []]; reflexivity. Qed.

Lemma dashRuns_no_space inRun s :
  Forall (fun c => JS.isSpace c = false) (list_ascii_of_string (JS.dashRuns inRun s)).
Proof.
  revert inRun. induction s as [|s r E IH|a r E IH] using scan_ind; intros inRun.
  - constructor.
  - rewrite dashRuns_skip, E.
    destruct inRun; [apply IH|]. constructor; [reflexivity|apply IH].
  - rewrite dashRuns_skip, E.
    constructor; [by apply (skipSpace_head a r)|apply IH].
Qed.

Lemma toLowerCase_clean s :
  Forall (fun c => JS.isSpace c = false) (list_ascii_of_string s) ->
  Forall (fun c => JS.isSpace c = false /\ JS.lowerChar c = c)
    (list_ascii_of_string (JS.toLowerCase s)).
Proof.
  induction s as [|c s IH]; simpl; intros H; [constructor|].
  apply Forall_cons in H as [Hc H]. constructor; [|by apply IH].
  by rewrite isSpace_lowerChar, lowerChar_lowerChar.
Qed.

Lemma spaceFree_prefixed (prefix s : string) :
  Forall (fun c => nat_of_ascii c < 128 /\ JS.isSpace c = false) (list_ascii_of_string prefix) ->
  JS.spaceFree s -> JS.spaceFree (prefix +:+ s).
Proof.
  intros Hprefix Hs. induction prefix as [|a prefix IH]; [exact Hs|].
  apply Forall_cons in Hprefix as [[Hlow Ha] Hprefix].
  change (String a prefix +:+ s) with (String a (prefix +:+ s)).
  apply spaceFree_cons; [by apply skipSpace_low|by apply IH].
Qed.

(** X16: the class of a task item is computed exactly when the task
    has a priority; it then carries no white space and no capital
    letter, as does the class of its status.  The classes of a list can
    be computed exactly when no task of the list lacks a priority.  No
    white space means: no byte of the class is a white-space character,
    and no part of the class is a run of white-space code points, those
    of two and three bytes included. *)
Theorem item_classes :
  (forall t, priorityClass t = None <-> task_priority t = None) /\
  (forall t cls, priorityClass t = Some cls ->
     Forall (fun c => JS.isSpace c = false /\ JS.lowerChar c = c) (list_ascii_of_string cls)) /\
  (forall t,
     Forall (fun c => JS.isSpace c = false /\ JS.lowerChar c = c)
       (list_ascii_of_string (statusClass t))) /\
  (forall shown, itemClasses shown = None <-> exists t, t ∈ shown /\ task_priority t = None) /\
  (forall t cls before ws after,
     priorityClass t = Some cls -> cls = before +:+ ws +:+ after ->
     JS.blank ws = true -> ws = "") /\
  (forall t before ws after,
     statusClass t = before +:+ ws +:+ after -> JS.blank ws = true -> ws = "").
Proof.
  split; [|split; [|split; [|split; [|split]]]].
  - intros t. unfold priorityClass. by destruct (task_priority t).
  - intros t cls. unfold priorityClass. destruct (task_priority t) as [priority|]; [|done].
    intros [= <-]. simpl. repeat (constructor; [by split|]).
    apply toLowerCase_clean, dashRuns_no_space.
  - intros t. unfold statusClass. simpl. repeat (constructor; [by split|]).
    apply toLowerCase_clean, dashRuns_no_space.
  - intros shown. unfold itemClasses. rewrite mapM_None, Exists_exists.
    unfold priorityClass. split; intros (t & Ht & Hp); exists t; (split; [done|]);
      by destruct (task_priority t).
  - intros t cls before ws after. unfold priorityClass.
    destruct (task_priority t) as [priority|]; [|done]. intros [= <-].
    apply spaceFree_no_blank, spaceFree_prefixed.
    + repeat (constructor; [split; [by apply Nat.ltb_lt|reflexivity]|]). constructor.
    + apply spaceFree_toLowerCase, spaceFree_dashRuns.
  - intros t before ws after. unfold statusClass.
    apply spaceFree_no_blank, spaceFree_prefixed.
    + repeat (constructor; [split; [by apply Nat.ltb_lt|reflexivity]|]). constructor.
    + apply spaceFree_toLowerCase, spaceFree_dashRuns.
Qed.

(** A priority written with a no-break space (U+00A0) between its
    words. *)
Example priority_class_wide_space :
  JS.toLowerCase (JS.replaceSpaces ("High" +:+ String "194" (String "160" "Priority")))
  = "high-priority".
Proof. reflexivity. Qed.


Example priorityClass_mid_level :
  priorityClass (mkTask "Chai x Pasty 'Hot Ones'" "Mid-level  Priority"
                   "jess@trashtv.productions" "Todo" None (Some "2025-10-27") None)
  = Some "priority-mid-level-priority".
Proof. reflexivity. Qed.

Section BrokenList.
Variable Date_getTime : string -> option Z.

(** X17: once a reply without a priority has been accepted, the
    classes of the list under ["all"] cannot be computed any more, nor
    those of the list under the filter of its assignee: rendering the
    item of the new task throws. *)
Theorem task_without_priority_breaks_list (d : TaskData) (s : State) :
  JS.blank (newTaskInput s) = false -> isLoading s = false ->
  JS.truthy (td_name d) && JS.truthy (td_assignee d) && JS.truthy (td_dueDate d) = true ->
  td_priority d = None ->
  let s' := handleAddTask (Extracted d) s in
  itemClasses (renderedTasks Date_getTime "all" (tasks s')) = None /\
  itemClasses (renderedTasks Date_getTime (task_assignee (newTask d)) (tasks s')) = None.
Proof.
  intros Hinput Hidle Hd Hpriority. cbv zeta.
  rewrite (handleAddTask_accepted d s Hinput Hidle Hd).
  assert (Hin : newTask d ∈ tasks s ++ [newTask d]).
  { apply elem_of_app. right. by apply list_elem_of_singleton. }
  unfold itemClasses. rewrite !mapM_None, !Exists_exists.
  split; exists (newTask d); rewrite elem_of_renderedTasks; unfold priorityClass, Matches;
    simpl; rewrite Hpriority; auto.
Qed.

End BrokenList.

Lemma task_without_priority_breaks_list_witness :
  JS.blank (newTaskInput requestTyped) = false /\ isLoading requestTyped = false /\
  td_priority noPriorityData = None /\
  itemClasses (renderedTasks UtcHost.getTime "all"
                 (tasks (handleAddTask (Extracted noPriorityData) requestTyped))) = None.
Proof.
  split; [reflexivity|]. split; [reflexivity|]. split; [reflexivity|].
  exact (proj1 (task_without_priority_breaks_list UtcHost.getTime noPriorityData requestTyped
                  eq_refl eq_refl eq_refl eq_refl)).
Defined.

End AppMore.

(* ================================================================= *)
(** ** Setup form and stored spreadsheet id *)

Module SetupFacts.

(** X18: the setup form hands over an id exactly when the text is not
    blank; the id is the text without the white space before and after
    it: it is not empty, no white space begins or ends it, and trimming
    it again changes nothing.  White space is any of the code points
    that [trim] removes, no-break spaces included.  A blank text only
    raises the alert.  Of all keys, Enter alone saves. *)
Theorem setup_saves_trimmed_id (inputId : string) :
  match Setup.handleSave inputId with
  | Setup.Saved id =>
      JS.blank inputId = false /\ id = JS.trim inputId /\ id <> "" /\
      JS.trim id = id /\
      (exists before after,
         inputId = before +:+ id +:+ after /\
         JS.blank before = true /\ JS.blank after = true) /\
      (forall ws rest, id = ws +:+ rest -> JS.blank ws = true -> ws = "") /\
      (forall front tail, id = front +:+ tail -> JS.blank tail = true -> tail = "")
  | Setup.Alerted message =>
      JS.blank inputId = true /\ message = "Please enter a valid Spreadsheet ID."
  end /\
  (forall key, Setup.handleKeyPress key inputId <> None <-> key = "Enter").
Proof.
  split.
  - unfold Setup.handleSave.
    destruct (JS.trim inputId) as [|c rest] eqn:Hs; simpl.
    + split; [|reflexivity]. by apply trim_empty.
    + split; [|split; [reflexivity|split; [discriminate|split; [|split; [|split]]]]].
      * destruct (JS.blank inputId) eqn:E; [|reflexivity].
        apply trim_empty in E. congruence.
      * rewrite <- Hs. apply trim_trim.
      * rewrite <- Hs. apply trim_split.
      * intros ws tail H. rewrite <- Hs in H.
        apply (no_head (JS.trim inputId) ws tail); [apply skipSpace_trim|exact H].
      * intros front tail H. rewrite <- Hs in H. unfold JS.trim in H.
        exact (trimEnd_no_tail _ _ _ H).
  - intros key. unfold Setup.handleKeyPress.
    destruct (String.eqb_spec key "Enter"); split; congruence.
Qed.

(** The id is pasted between two spaces; between a no-break space
    (U+00A0) and an ideographic space (U+3000); a text of no-break
    spaces is blank. *)
Example setup_trims :
  Setup.handleSave "  1AbC-dEf_9  " = Setup.Saved "1AbC-dEf_9".
Proof. reflexivity. Qed.

Example setup_trims_wide_spaces :
  Setup.handleSave
    (String "194" (String "160" "1AbC-dEf_9" +:+
       String "227" (String "128" (String "128" ""))))
  = Setup.Saved "1AbC-dEf_9".
Proof. reflexivity. Qed.

Example setup_refuses_wide_spaces :
  Setup.handleSave (String "194" (String "160" (String "194" (String "160" ""))))
  = Setup.Alerted "Please enter a valid Spreadsheet ID.".
Proof. reflexivity. Qed.

End SetupFacts.

Module PageFacts.
Import App.

(** X19: saving an id from the setup form stores the trimmed id, in
    the state and under the key "spreadsheetId" of the local storage and
    no other key, so that a reload of the page finds it again; a blank
    text stores nothing. *)
Theorem saved_id_survives_reload (inputId : string) (p : Page.Page) :
  let p' := Page.saveFromSetup inputId p in
  if JS.blank inputId then p' = p
  else
    spreadsheetId (Page.app p') = Some (JS.trim inputId) /\
    spreadsheetId (Page.app (Page.mount (Page.localStorage p'))) = Some (JS.trim inputId) /\
    (forall key, key <> "spreadsheetId" ->
       Page.localStorage p' !! key = Page.localStorage p !! key) /\
    tasks (Page.app p') = tasks (Page.app p).
Proof.
  cbv zeta. unfold Page.saveFromSetup, Setup.handleSave.
  destruct (JS.blank inputId) eqn:E.
  - apply trim_empty in E. by rewrite E.
  - destruct (JS.trim inputId) as [|c rest] eqn:Hs.
    { apply trim_empty in Hs. congruence. }
    simpl. unfold Page.mount. simpl. rewrite lookup_insert_eq. simpl.
    repeat split. intros key Hkey. by rewrite lookup_insert_ne.
Qed.

(** X20: "change spreadsheet" forgets the id, in the state and in the
    local storage, so that a reload asks for it again; from a signed-in
    session the view goes to the setup screen.  The tasks in memory are
    kept. *)
Theorem changed_spreadsheet_is_forgotten (p : Page.Page) :
  let p' := Page.handleChangeSpreadsheet p in
  spreadsheetId (Page.app p') = None /\
  Page.localStorage p' !! "spreadsheetId" = None /\
  spreadsheetId (Page.app (Page.mount (Page.localStorage p'))) = None /\
  (forall key, key <> "spreadsheetId" ->
     Page.localStorage p' !! key = Page.localStorage p !! key) /\
  tasks (Page.app p') = tasks (Page.app p) /\
  screen (Page.app p')
  = (if negb (gapiReady (Page.app p)) then Initializing
     else if negb (isSignedIn (Page.app p)) then SignedOut else NeedsSetup).
Proof.
  cbv zeta. unfold Page.handleChangeSpreadsheet, Page.mount. simpl.
  rewrite lookup_delete_eq. simpl. repeat split.
  intros key Hkey. by rewrite lookup_delete_ne.
Qed.

(** X21: the way into the hub.  A page just loaded shows the
    initialising screen; once the services are loaded, or have failed to
    load, it shows the sign-in screen, whose button works only if they
    loaded; a token then leads to the task list when an id is stored and
    to the setup screen when none is.  The list after a load is always the
    seeded one: tasks added before are not kept. *)
Theorem boot_sequence (storage : gmap string string) (loaded : bool) (c : ascii) (token : string) :
  let s0 := Page.app (Page.mount storage) in
  let s1 := initializeApis loaded s0 in
  let s2 := callback (Some (String c token)) (initializeApis true s0) in
  screen s0 = Initializing /\
  screen s1 = SignedOut /\ signInEnabled s1 = loaded /\
  (error s1 = None <-> loaded = true) /\
  screen s2 = (if JS.truthy (storage !! "spreadsheetId") then TaskList else NeedsSetup) /\
  tasks s2 = initialTasks /\ error s2 = None.
Proof.
  cbv zeta. unfold Page.mount. simpl.
  destruct (JS.truthy (storage !! "spreadsheetId")) eqn:E, loaded; simpl;
    unfold screen; simpl; rewrite ?E; repeat split; congruence.
Qed.

(** X22: from the task list, a click on a task opens its detail view
    and "back" returns to the very state the click was made in; "change
    spreadsheet" leads to the setup screen, and saving an id there leads
    back to the task list (an empty id, which the setup form never hands
    over, would leave the setup screen in place). *)
Theorem task_list_transitions (s : State) (t : Task) (c : ascii) (id : string) :
  screen s = TaskList ->
  screen (handleTaskClick t s) = TaskDetail t /\
  handleBackClick (handleTaskClick t s) = s /\
  screen (handleChangeSpreadsheet s) = NeedsSetup /\
  screen (handleSaveSpreadsheetId (String c id) (handleChangeSpreadsheet s)) = TaskList /\
  screen (handleSaveSpreadsheetId "" (handleChangeSpreadsheet s)) = NeedsSetup.
Proof.
  unfold screen. intros H.
  destruct (gapiReady s) eqn:Hready; [|discriminate].
  destruct (isSignedIn s) eqn:Hsigned; [|discriminate].
  destruct (JS.truthy (spreadsheetId s)) eqn:Hid; [|discriminate].
  destruct (selectedTask s) eqn:Hselected; [discriminate|].
  simpl in *. rewrite Hready, Hsigned, ?Hid, ?Hselected. simpl.
  repeat split. destruct s; simpl in *. by subst.
Qed.

Lemma task_list_transitions_witness :
  screen requestTyped = TaskList /\
  handleBackClick (handleTaskClick undatedTask requestTyped) = requestTyped.
Proof.
  split; [reflexivity|].
  exact (proj1 (proj2 (task_list_transitions requestTyped undatedTask "x" "" eq_refl))).
Defined.

End PageFacts.
